(** * WoCo Commons: temporal identity and jurisdiction resolution

    A shallow embedding of the resolver logic of [common/models.py],
    the permission class of [common/views.py] and the auth restore
    command [common/management/commands/restore_auth.py].

    A table is the list of its rows, in the order in which the store
    yields rows that a sort does not tell apart (the store's own
    order, which need not be the order of insertion); a queryset is a
    list of rows; [filter], [order_by] and [first] follow the ORM calls
    of the source.  Dates are day numbers, nullable columns are
    [option]s. *)

From Stdlib Require Import ZArith List String Bool Lia Permutation.
Import ListNotations.
Open Scope string_scope.
Open Scope Z_scope.

(* ================================================================== *)
(** * Dates and timestamps *)

(** A [DateField] value: the day number of a calendar date. *)
Definition date := Z.

(** Day number of the civil date [y]-[m]-[d] (days since 1970-01-01). *)
Definition date_of_ymd (y m d : Z) : date :=
  let y' := if m <=? 2 then y - 1 else y in
  let era := y' / 400 in
  let yoe := y' - era * 400 in
  let mp := if 2 <? m then m - 3 else m + 9 in
  let doy := (153 * mp + 2) / 5 + d - 1 in
  let doe := yoe * 365 + yoe / 4 - yoe / 100 + doy in
  era * 146097 + doe - 719468.

(** A timestamp, as produced by [Now()]: a day and the microseconds
    elapsed since midnight of that day. *)
Record datetime := mkDatetime { dt_day : date; dt_micros : Z }.

(** The store compares a DATE column with a DATETIME value by reading
    the date as midnight of that day. *)
Definition datetime_of_date (d : date) : datetime := mkDatetime d 0.

Definition datetime_leb (a b : datetime) : bool :=
  (dt_day a <? dt_day b) || ((dt_day a =? dt_day b) && (dt_micros a <=? dt_micros b)).

(* ================================================================== *)
(** * Field lookups

    The comparison lookups of the ORM on a nullable column: a NULL
    never satisfies a comparison. *)

Definition isnull {A} (c : option A) : bool :=
  match c with None => true | Some _ => false end.

Definition lte (c : date) (v : date) : bool := c <=? v.

Definition gt (c : option date) (v : date) : bool :=
  match c with Some t => v <? t | None => false end.

(** [column__gte = Now()]: a date column against a timestamp. *)
Definition gte_now (c : option date) (now : datetime) : bool :=
  match c with Some t => datetime_leb now (datetime_of_date t) | None => false end.

(* ================================================================== *)
(** * Querysets *)

Module QuerySet.
Section Ops.
Context {A : Type}.

(** An ordering: the sort key of a row, compared lexicographically.
    A descending column contributes its negation. *)
Variable key : A -> Z * Z.

Definition key_leb (a b : A) : bool :=
  let '(a1, a2) := key a in
  let '(b1, b2) := key b in
  (a1 <? b1) || ((a1 =? b1) && (a2 <=? b2)).

(** ORDER BY.  The sort key decides the order of rows with different
    keys.  Among rows with equal keys SQL leaves the order to the
    store: they come out as the store yields them, which is the order
    of the list (hence a stable sort).  The facts proved about [first]
    below hold for every such order. *)
Fixpoint insert (x : A) (l : list A) : list A :=
  match l with
  | [] => [x]
  | y :: l' => if key_leb x y then x :: l else y :: insert x l'
  end.

Definition order_by (l : list A) : list A := fold_right insert [] l.

(** [first()] of a queryset that carries an ordering. *)
Definition first (l : list A) : option A := hd_error (order_by l).
End Ops.
End QuerySet.

(* ================================================================== *)
(** * Models

    One module per model class; [t] is a row.  A foreign key column
    holds the primary key of the row it references.  Decimal columns
    with seven decimal places hold the value scaled by 10^7.  The audit
    columns of [TimestampedModel] take no part in any resolution and
    are left out. *)

Definition Decimal := Z.

Module PostalFacility.
Record t := mk {
    postal_facility_id : Z;
    reference_code : string;
    latitude : option Decimal;
    longitude : option Decimal
  }.
End PostalFacility.

Module PostalFacilityIdentity.
Record t := mk {
    postal_facility_identity_id : Z;
    postal_facility : Z;
    effective_from_date : date;
    effective_to_date : option date;
    facility_name : string;
    facility_type : string;
    is_operational : bool;
    discontinuation_reason : string;
    latitude : option Decimal;
    longitude : option Decimal;
    notes : string
  }.

(** [Meta.ordering = ['postal_facility', 'effective_from_date']] *)
Definition ordering (i : t) : Z * Z := (postal_facility i, effective_from_date i).
End PostalFacilityIdentity.

Module AdministrativeUnit.
Record t := mk {
    administrative_unit_id : Z;
    reference_code : string
  }.
End AdministrativeUnit.

Module AdministrativeUnitIdentity.
Record t := mk {
    administrative_unit_identity_id : Z;
    administrative_unit : Z;
    parent_administrative_unit : option Z;
    effective_from_date : date;
    effective_to_date : option date;
    unit_name : string;
    unit_abbreviation : string;
    unit_type : string;
    hierarchy_level : Z;
    change_reason : string
  }.

(** [Meta.ordering = ['administrative_unit', '-effective_from_date']] *)
Definition ordering (i : t) : Z * Z := (administrative_unit i, - effective_from_date i).
End AdministrativeUnitIdentity.

Module Group.
Record t := mk { id : Z; name : string }.

(** Model instances compare by primary key. *)
Definition eqb (a b : t) : bool := id a =? id b.
End Group.

Module AdministrativeUnitResponsibility.
Record t := mk {
    administrative_unit_responsibility_id : Z;
    administrative_unit : Z;
    group : Z;
    is_active : bool;
    notes : string
  }.
End AdministrativeUnitResponsibility.

Module JurisdictionalAffiliation.
Record t := mk {
    jurisdictional_affiliation_id : Z;
    postal_facility_identity : Z;
    administrative_unit : Z;
    effective_from_date : date;
    effective_to_date : option date;
    affiliation_source : string
  }.
End JurisdictionalAffiliation.

Module Postmark.
Record t := mk {
    postmark_id : Z;
    postal_facility_identity : Z;
    postmark_key : string;
    rate_location : string;
    rate_value : string;
    is_manuscript : bool;
    other_characteristics : string
  }.
End Postmark.

(** The store: one list of rows per table, named after [Meta.db_table]. *)
Record Database := mkDatabase {
  PostalFacilities : list PostalFacility.t;
  PostalFacilityIdentities : list PostalFacilityIdentity.t;
  AdministrativeUnits : list AdministrativeUnit.t;
  AdministrativeUnitIdentities : list AdministrativeUnitIdentity.t;
  AdministrativeUnitResponsibilities : list AdministrativeUnitResponsibility.t;
  JurisdictionalAffiliations : list JurisdictionalAffiliation.t;
  Postmarks : list Postmark.t;
  auth_group : list Group.t
}.

(* ================================================================== *)
(** * Exceptions *)

Inductive exn :=
| DoesNotExist
| SystemExit (msg : string)
| FileNotFoundError (path : string)
| InvalidDataset.

Inductive result (A : Type) :=
| Ok (a : A)
| Raise (e : exn).
Arguments Ok {A} a.
Arguments Raise {A} e.

Definition bind {A B} (m : result A) (k : A -> result B) : result B :=
  match m with Ok a => k a | Raise e => Raise e end.

Notation "x <- m ;; k" := (bind m (fun x => k))
  (at level 61, m at next level, right associativity).

Fixpoint mapM {A B} (f : A -> result B) (l : list A) : result (list B) :=
  match l with
  | [] => Ok []
  | x :: l' => y <- f x ;; ys <- mapM f l' ;; Ok (y :: ys)
  end.

(** Following a foreign key: the referenced row, or [DoesNotExist]. *)
Definition related {A} (pk : A -> Z) (table : list A) (k : Z) : result A :=
  match find (fun r => pk r =? k) table with
  | Some r => Ok r
  | None => Raise DoesNotExist
  end.

(* ================================================================== *)
(** * Identity resolution ([PostalFacility], [AdministrativeUnit]) *)

(** The reverse relation [self.identities]. *)
Definition PostalFacility_identities (db : Database) (self : PostalFacility.t)
  : list PostalFacilityIdentity.t :=
  filter (fun i => PostalFacilityIdentity.postal_facility i
                   =? PostalFacility.postal_facility_id self)
         (PostalFacilityIdentities db).

Definition PostalFacility_get_current_identity (db : Database) (self : PostalFacility.t)
  : option PostalFacilityIdentity.t :=
  QuerySet.first PostalFacilityIdentity.ordering
    (filter (fun i => isnull (PostalFacilityIdentity.effective_to_date i))
            (PostalFacility_identities db self)).

Definition PostalFacility_get_identity_at_date
  (db : Database) (self : PostalFacility.t) (target_date : date)
  : option PostalFacilityIdentity.t :=
  QuerySet.first PostalFacilityIdentity.ordering
    (filter (fun i =>
               lte (PostalFacilityIdentity.effective_from_date i) target_date
               && (isnull (PostalFacilityIdentity.effective_to_date i)
                   || gt (PostalFacilityIdentity.effective_to_date i) target_date))
            (PostalFacility_identities db self)).

Definition AdministrativeUnit_identities (db : Database) (self : AdministrativeUnit.t)
  : list AdministrativeUnitIdentity.t :=
  filter (fun i => AdministrativeUnitIdentity.administrative_unit i
                   =? AdministrativeUnit.administrative_unit_id self)
         (AdministrativeUnitIdentities db).

Definition AdministrativeUnit_get_current_identity
  (db : Database) (self : AdministrativeUnit.t)
  : option AdministrativeUnitIdentity.t :=
  QuerySet.first AdministrativeUnitIdentity.ordering
    (filter (fun i => isnull (AdministrativeUnitIdentity.effective_to_date i))
            (AdministrativeUnit_identities db self)).

Definition AdministrativeUnit_get_identity_at_date
  (db : Database) (self : AdministrativeUnit.t) (target_date : date)
  : option AdministrativeUnitIdentity.t :=
  QuerySet.first AdministrativeUnitIdentity.ordering
    (filter (fun i =>
               lte (AdministrativeUnitIdentity.effective_from_date i) target_date
               && (isnull (AdministrativeUnitIdentity.effective_to_date i)
                   || gt (AdministrativeUnitIdentity.effective_to_date i) target_date))
            (AdministrativeUnit_identities db self)).

(* ================================================================== *)
(** * Jurisdiction resolution ([JurisdictionalAffiliation]) *)

(** [JurisdictionalAffiliation.get_administrative_unit_identity]: the
    unit's identity at the affiliation's own start date. *)
Definition JurisdictionalAffiliation_get_administrative_unit_identity
  (db : Database) (self : JurisdictionalAffiliation.t)
  : result (option AdministrativeUnitIdentity.t) :=
  unit <- related AdministrativeUnit.administrative_unit_id (AdministrativeUnits db)
                  (JurisdictionalAffiliation.administrative_unit self) ;;
  Ok (AdministrativeUnit_get_identity_at_date db unit
        (JurisdictionalAffiliation.effective_from_date self)).

(** [JurisdictionalAffiliationSerializer.get_administrative_unit_name] *)
Definition JurisdictionalAffiliationSerializer_get_administrative_unit_name
  (db : Database) (obj : JurisdictionalAffiliation.t) : result (option string) :=
  identity <- JurisdictionalAffiliation_get_administrative_unit_identity db obj ;;
  Ok (match identity with
      | Some i => Some (AdministrativeUnitIdentity.unit_name i)
      | None => None
      end).

(** [AdministrativeUnitResponsibilitySerializer.get_administrative_unit_name]:
    the unit's name through its current identity. *)
Definition AdministrativeUnitResponsibilitySerializer_get_administrative_unit_name
  (db : Database) (obj : AdministrativeUnitResponsibility.t) : result string :=
  unit <- related AdministrativeUnit.administrative_unit_id (AdministrativeUnits db)
                  (AdministrativeUnitResponsibility.administrative_unit obj) ;;
  Ok (match AdministrativeUnit_get_current_identity db unit with
      | Some i => AdministrativeUnitIdentity.unit_name i
      | None => AdministrativeUnit.reference_code unit
      end).

(** The reverse relation [identity.jurisdictions]. *)
Definition PostalFacilityIdentity_jurisdictions
  (db : Database) (self : PostalFacilityIdentity.t) : list JurisdictionalAffiliation.t :=
  filter (fun a => JurisdictionalAffiliation.postal_facility_identity a
                   =? PostalFacilityIdentity.postal_facility_identity_id self)
         (JurisdictionalAffiliations db).

(** The affiliation test of [filter_by_state] and
    [filter_by_current_state] in [common/filters.py] ("Find current
    jurisdictional affiliations"), with [today = date.today()]. *)
Definition filters_current_affiliation (today : date) (a : JurisdictionalAffiliation.t) : bool :=
  lte (JurisdictionalAffiliation.effective_from_date a) today
  && (isnull (JurisdictionalAffiliation.effective_to_date a)
      || gt (JurisdictionalAffiliation.effective_to_date a) today).

(* ================================================================== *)
(** * Coordinates ([PostalFacilityIdentity.get_coordinates]) *)

(** Truth value of a nullable decimal: [None] and zero are false. *)
Definition truthy (d : option Decimal) : bool :=
  match d with Some v => negb (v =? 0) | None => false end.

Definition PostalFacilityIdentity_get_coordinates
  (db : Database) (self : PostalFacilityIdentity.t)
  : result (option Decimal * option Decimal) :=
  if truthy (PostalFacilityIdentity.latitude self)
     && truthy (PostalFacilityIdentity.longitude self)
  then Ok (PostalFacilityIdentity.latitude self, PostalFacilityIdentity.longitude self)
  else
    facility <- related PostalFacility.postal_facility_id (PostalFacilities db)
                        (PostalFacilityIdentity.postal_facility self) ;;
    Ok (PostalFacility.latitude facility, PostalFacility.longitude facility).

(** [PostalFacilityIdentitySerializer.get_coordinates]: the pair, or
    [None] when either component is false. *)
Definition PostalFacilityIdentitySerializer_get_coordinates
  (db : Database) (obj : PostalFacilityIdentity.t)
  : result (option (option Decimal * option Decimal)) :=
  coords <- PostalFacilityIdentity_get_coordinates db obj ;;
  Ok (if truthy (fst coords) && truthy (snd coords) then Some coords else None).

(* ================================================================== *)
(** * Responsible groups ([Postmark.get_responsible_groups]) *)

Definition Postmark_get_responsible_groups
  (db : Database) (now : datetime) (self : Postmark.t) : result (list Group.t) :=
  identity <- related PostalFacilityIdentity.postal_facility_identity_id
                      (PostalFacilityIdentities db)
                      (Postmark.postal_facility_identity self) ;;
  let affiliations :=
    filter (fun a => isnull (JurisdictionalAffiliation.effective_to_date a)
                     || gte_now (JurisdictionalAffiliation.effective_to_date a) now)
           (PostalFacilityIdentity_jurisdictions db identity) in
  admin_units <-
    mapM (fun aff => related AdministrativeUnit.administrative_unit_id
                             (AdministrativeUnits db)
                             (JurisdictionalAffiliation.administrative_unit aff))
         affiliations ;;
  let responsibilities :=
    filter (fun r =>
              existsb (fun u => AdministrativeUnitResponsibility.administrative_unit r
                                =? AdministrativeUnit.administrative_unit_id u)
                      admin_units
              && eqb (AdministrativeUnitResponsibility.is_active r) true)
           (AdministrativeUnitResponsibilities db) in
  mapM (fun resp => related Group.id (auth_group db)
                            (AdministrativeUnitResponsibility.group resp))
       responsibilities.

(* ================================================================== *)
(** * Permission check ([IsResponsibleForRegion]) *)

Module User.
Record t := mk {
    id : Z;
    username : string;
    is_superuser : bool;
    groups : list Group.t     (* [user.groups.all()] *)
  }.
End User.

(** [request.user]: an authenticated user or the anonymous user. *)
Inductive principal :=
| AnonymousUser
| AuthenticatedUser (u : User.t).

Definition principal_groups (p : principal) : list Group.t :=
  match p with
  | AnonymousUser => []
  | AuthenticatedUser u => User.groups u
  end.

Definition is_authenticated (p : principal) : bool :=
  match p with
  | AnonymousUser => false
  | AuthenticatedUser _ => true
  end.

Record Request := mkRequest { method : string; user : principal }.

(** The object under the check: a [Postmark] or an instance of any
    other model. *)
Inductive instance :=
| PostmarkInstance (p : Postmark.t)
| OtherInstance.

Definition SAFE_METHODS : list string := ["GET"; "HEAD"; "OPTIONS"].

Definition in_methods (m : string) (l : list string) : bool :=
  existsb (String.eqb m) l.

(** [group in responsible_groups] *)
Definition group_in (g : Group.t) (l : list Group.t) : bool :=
  existsb (Group.eqb g) l.

Definition IsResponsibleForRegion_has_object_permission
  (db : Database) (now : datetime) (request : Request) (obj : instance) : result bool :=
  if in_methods (method request) SAFE_METHODS then Ok true
  else match obj with
       | PostmarkInstance p =>
           responsible_groups <- Postmark_get_responsible_groups db now p ;;
           let user_groups := principal_groups (user request) in
           Ok (existsb (fun group => group_in group responsible_groups) user_groups)
       | OtherInstance => Ok (is_authenticated (user request))
       end.

(* ================================================================== *)
(** * Writes used by the frame properties *)

(** [identity.save()] of an existing row: UPDATE ... WHERE pk = the
    row's primary key. *)
Definition PostalFacilityIdentity_save (new : PostalFacilityIdentity.t) (db : Database)
  : Database :=
  mkDatabase
    (PostalFacilities db)
    (map (fun r => if PostalFacilityIdentity.postal_facility_identity_id r
                      =? PostalFacilityIdentity.postal_facility_identity_id new
                   then new else r)
         (PostalFacilityIdentities db))
    (AdministrativeUnits db)
    (AdministrativeUnitIdentities db)
    (AdministrativeUnitResponsibilities db)
    (JurisdictionalAffiliations db)
    (Postmarks db)
    (auth_group db).

(** Changing only the name of a facility identity. *)
Definition set_facility_name (name : string) (i : PostalFacilityIdentity.t)
  : PostalFacilityIdentity.t :=
  PostalFacilityIdentity.mk
    (PostalFacilityIdentity.postal_facility_identity_id i)
    (PostalFacilityIdentity.postal_facility i)
    (PostalFacilityIdentity.effective_from_date i)
    (PostalFacilityIdentity.effective_to_date i)
    name
    (PostalFacilityIdentity.facility_type i)
    (PostalFacilityIdentity.is_operational i)
    (PostalFacilityIdentity.discontinuation_reason i)
    (PostalFacilityIdentity.latitude i)
    (PostalFacilityIdentity.longitude i)
    (PostalFacilityIdentity.notes i).

(** Any rewrite of the affiliation table: rows added, changed or
    removed. *)
Definition with_JurisdictionalAffiliations
  (affiliations : list JurisdictionalAffiliation.t) (db : Database) : Database :=
  mkDatabase
    (PostalFacilities db)
    (PostalFacilityIdentities db)
    (AdministrativeUnits db)
    (AdministrativeUnitIdentities db)
    (AdministrativeUnitResponsibilities db)
    affiliations
    (Postmarks db)
    (auth_group db).

(* ================================================================== *)
(** * The auth restore command ([restore_auth.Command.handle]) *)

Module RestoreAuth.

Record options := mkOptions {
    format : string;
    dry_run : bool;
    paths : list string;
    users_file : option string;
    groups_file : option string;
    emails_file : option string
  }.

Inductive resource := GroupResource | UserResource | EmailAddressResource.

(** What the command reads of an import result. *)
Record ImportResult := mkResult { has_errors : bool; row_errors : string }.

Inductive style := PLAIN | SUCCESS | ERROR | WARNING.

(** Truth value of an optional string: [None] and the empty string
    are false. *)
Definition truthy (s : option string) : bool :=
  match s with
  | Some s' => negb (String.eqb s' "")
  | None => false
  end.

(** [a or b] *)
Definition py_or (a b : option string) : option string :=
  if truthy a then a else b.

(** [paths[n] if len(paths) >= n + 1 else None] *)
Definition positional (paths : list string) (n : nat) : option string :=
  nth_error paths n.

Section Command.
(** The auth tables, and a parsed dataset. *)
Variables Store Dataset : Type.

(** The database connection inside the transaction of the command:
    the tables as the transaction sees them, and [needs_rollback], the
    mark the connection gets when a database error is raised inside
    the transaction (an INSERT the store refuses, say).  A marked
    transaction can only be rolled back. *)
Record connection := mkConnection { tables : Store; needs_rollback : bool }.

(** The environment of the command: the file system, the dataset
    parser [Dataset().load(raw, format=fmt)] and the import of one
    dataset by a resource, [resource.import_data(dataset,
    dry_run=dry_run)].  With its default [raise_errors=False] the
    import does not raise on a row that fails: it reports the row
    errors in its result; it takes the connection to a new state. *)
Variable read_file : string -> option string.
Variable load : string -> string -> option Dataset.
Variable import_data : resource -> Dataset -> bool -> connection -> connection * ImportResult.

(** One call of [import_data], with the connection as it found it
    and as it left it. *)
Record call := mkCall { res : resource; before : connection; after : connection }.

Record world := mkWorld {
    conn : connection;
    stdout : list (style * string);
    calls : list call
  }.

(** Control flow of the body: fall through, [return], or raise. *)
Inductive flow (A : Type) :=
  | Next (a : A)
  | Return
  | Throw (e : exn).
Arguments Next {A} a.
Arguments Return {A}.
Arguments Throw {A} e.

Definition M (A : Type) := world -> flow A * world.

Definition ret {A} (a : A) : M A := fun w => (Next a, w).

Definition seq {A B} (m : M A) (k : A -> M B) : M B :=
  fun w => match m w with
           | (Next a, w') => k a w'
           | (Return, w') => (Return, w')
           | (Throw e, w') => (Throw e, w')
           end.

Notation "x <~ m ; k" := (seq m (fun x => k))
  (at level 61, m at next level, right associativity).
Notation "m ;; k" := (seq m (fun _ => k))
  (at level 61, right associativity).

Definition return_ {A} : M A := fun w => (Return, w).
Definition raise {A} (e : exn) : M A := fun w => (Throw e, w).

Definition write (st : style) (s : string) : M unit :=
  fun w => (Next tt, mkWorld (conn w) (stdout w ++ [(st, s)]) (calls w)).

Definition when (b : bool) (m : M unit) : M unit :=
  if b then m else ret tt.

(** [with open(path) as f: raw = f.read()] *)
Definition open_read (path : string) : M string :=
  match read_file path with
  | Some raw => ret raw
  | None => raise (FileNotFoundError path)
  end.

(** [Dataset().load(raw, format=fmt)] *)
Definition Dataset_load (raw fmt : string) : M Dataset :=
  match load raw fmt with
  | Some d => ret d
  | None => raise InvalidDataset
  end.

(** [resource.import_data(dataset, dry_run=dry_run)] *)
Definition run_import (r : resource) (d : Dataset) (dry : bool) : M ImportResult :=
  fun w =>
    let '(c', result) := import_data r d dry (conn w) in
    (Next result, mkWorld c' (stdout w) (calls w ++ [mkCall r (conn w) c'])).

(** The body of [handle]. *)
Definition handle_body (opts : options) : M unit :=
  let fmt := format opts in
  let dry_run := dry_run opts in
  let paths := paths opts in
  let users_path := py_or (users_file opts) (positional paths 0) in
  let groups_path := py_or (groups_file opts) (positional paths 1) in
  let emails_path := py_or (emails_file opts) (positional paths 2) in
  when (negb (truthy users_path))
       (raise (SystemExit "You must provide at least a users import path.")) ;;
  (* Groups first (if any), so user->group relations can resolve *)
  (if truthy groups_path then
     let groups_path := match groups_path with Some p => p | None => "" end in
     group_raw <~ open_read groups_path ;
     group_dataset <~ Dataset_load group_raw fmt ;
     group_result <~ run_import GroupResource group_dataset dry_run ;
     when (has_errors group_result)
          (write ERROR "Errors importing groups:" ;;
           write PLAIN (row_errors group_result) ;;
           when dry_run
                (write WARNING "Dry run aborted due to group errors." ;;
                 return_)) ;;
     write SUCCESS ("Groups imported from " ++ groups_path)
   else
     write PLAIN "Groups import skipped (no groups path provided).") ;;
  (* Users (required) *)
  (let users_path := match users_path with Some p => p | None => "" end in
   user_raw <~ open_read users_path ;
   user_dataset <~ Dataset_load user_raw fmt ;
   user_result <~ run_import UserResource user_dataset dry_run ;
   when (has_errors user_result)
        (write ERROR "Errors importing users:" ;;
         write PLAIN (row_errors user_result) ;;
         when dry_run
              (write WARNING "Dry run aborted due to user errors." ;;
               return_)) ;;
   write SUCCESS ("Users imported from " ++ users_path)) ;;
  (* Email addresses (optional; must come after users) *)
  (if truthy emails_path then
     let emails_path := match emails_path with Some p => p | None => "" end in
     email_raw <~ open_read emails_path ;
     email_dataset <~ Dataset_load email_raw fmt ;
     email_result <~ run_import EmailAddressResource email_dataset dry_run ;
     when (has_errors email_result)
          (write ERROR "Errors importing email addresses:" ;;
           write PLAIN (row_errors email_result) ;;
           when dry_run
                (write WARNING "Dry run aborted due to email address errors." ;;
                 return_)) ;;
     write SUCCESS ("Email addresses imported from " ++ emails_path)
   else
     write PLAIN "Email address import skipped (no emails path provided).") ;;
  (if dry_run then
     write SUCCESS "Dry run completed; no data committed."
   else
     write SUCCESS "Auth import completed successfully.").

(** The outcome of a run of the command: the tables are committed;
    or the body ended normally and the transaction was rolled back all
    the same, nothing being raised; or the body raised and the
    transaction was rolled back. *)
Inductive outcome :=
  | Committed (s : Store)
  | Discarded
  | RolledBack (e : exn).

(** [@transaction.atomic].  Entering the block opens a transaction
    with a clean mark.  On exit the writes of the body are committed
    when the body finished or returned and the transaction is not
    marked for rollback; they are discarded when the body raised, and
    also when it ended normally with the transaction marked. *)
Definition atomic (body : M unit) (s : Store) : outcome * world :=
  let rollback w := mkWorld (mkConnection s false) (stdout w) (calls w) in
  let exit w :=
    if needs_rollback (conn w) then (Discarded, rollback w)
    else (Committed (tables (conn w)), w) in
  match body (mkWorld (mkConnection s false) [] []) with
  | (Next _, w) => exit w
  | (Return, w) => exit w
  | (Throw e, w) => (RolledBack e, rollback w)
  end.

Definition handle (opts : options) (s : Store) : outcome * world :=
  atomic (handle_body opts) s.

(** The tables a run leaves behind. *)
Definition final_store (opts : options) (s : Store) : Store :=
  tables (conn (snd (handle opts s))).
End Command.

Arguments Next {A} a.
Arguments Return {A}.
Arguments Throw {A} e.
Arguments mkConnection {Store} tables needs_rollback.
Arguments tables {Store} c.
Arguments needs_rollback {Store} c.
Arguments Committed {Store} s.
Arguments Discarded {Store}.
Arguments RolledBack {Store} e.
Arguments mkCall {Store} res before after.
Arguments res {Store} c.
Arguments before {Store} c.
Arguments after {Store} c.
Arguments conn {Store} w.
Arguments stdout {Store} w.
Arguments calls {Store} w.
Arguments handle {Store Dataset} read_file load import_data opts s.
Arguments final_store {Store Dataset} read_file load import_data opts s.

End RestoreAuth.

(* ================================================================== *)
(** * The import library and a test environment for the command *)

Module ImportExport.

(** [Resource.import_data] of django-import-export with its default
    [raise_errors=False]: the rows of the dataset are imported one by
    one; a row that fails is recorded in the result and the rows after
    it are still tried.  The import runs under a savepoint of its own
    when [use_transactions] is set and in every dry run: then each row
    runs in an atomic block, and at the end the savepoint is rolled
    back if the run is a dry run or a row has errors.  (Such an import
    is taken here from an unmarked transaction, which is all the
    command hands it: the imports of one run are all under a savepoint
    or all without one, and those under a savepoint leave the mark as
    they found it.) *)
Section Resource.
Variables Store Row : Type.

(** What [import_row] does with one row: the instance is saved; or
    an exception is raised before anything is written (a value that
    cannot be converted, a reference that does not resolve); or the
    store refuses the write, a database error raised by [save()]. *)
Inductive row_outcome :=
  | Saved (s : Store)
  | Failed
  | DatabaseError.

Variable import_row : RestoreAuth.resource -> Row -> Store -> row_outcome.
Variable use_transactions : bool.

(** The rows, one by one; [contained] tells whether each row runs in
    an atomic block of its own.  A database error marks the enclosing
    transaction unless it is contained; once the transaction is
    marked, every query is refused and every further row fails. *)
Fixpoint import_rows (contained : bool) (r : RestoreAuth.resource) (rows : list Row)
  (c : RestoreAuth.connection Store) : RestoreAuth.connection Store * bool :=
  match rows with
  | [] => (c, false)
  | row :: rest =>
      if RestoreAuth.needs_rollback c then (fst (import_rows contained r rest c), true)
      else
        match import_row r row (RestoreAuth.tables c) with
        | Saved s' => import_rows contained r rest (RestoreAuth.mkConnection s' false)
        | Failed => (fst (import_rows contained r rest c), true)
        | DatabaseError =>
            (fst (import_rows contained r rest
                    (RestoreAuth.mkConnection (RestoreAuth.tables c) (negb contained))),
             true)
        end
  end.

Definition import_data (r : RestoreAuth.resource) (dataset : list Row)
  (dry_run : bool) (c : RestoreAuth.connection Store)
  : RestoreAuth.connection Store * RestoreAuth.ImportResult :=
  let using_transactions := use_transactions || dry_run in
  let '(c', errors) := import_rows using_transactions r dataset c in
  (if using_transactions && (dry_run || errors) then c else c',
   RestoreAuth.mkResult errors (if errors then "row errors" else "")).
End Resource.

Arguments Saved {Store} s.
Arguments Failed {Store}.
Arguments DatabaseError {Store}.
Arguments import_rows {Store Row} import_row contained r rows c.
Arguments import_data {Store Row} import_row use_transactions r dataset dry_run c.

End ImportExport.

Module RestoreFixture.
Import RestoreAuth.

(** The auth tables: the names written, by resource. *)
Definition Store := list (resource * string).

Definition resource_eqb (a b : resource) : bool :=
  match a, b with
  | GroupResource, GroupResource
  | UserResource, UserResource
  | EmailAddressResource, EmailAddressResource => true
  | _, _ => false
  end.

(** A row is a name.  A blank name is rejected before anything is
    written; a name the table already holds is refused by the store
    (names are unique). *)
Definition import_row (r : resource) (row : string) (s : Store)
  : ImportExport.row_outcome Store :=
  if String.eqb row "" then ImportExport.Failed
  else if existsb (fun e => resource_eqb (fst e) r && String.eqb (snd e) row) s
  then ImportExport.DatabaseError
  else ImportExport.Saved (s ++ [(r, row)])%list.

Definition newline : Ascii.ascii := Ascii.ascii_of_nat 10.

(** One row per line. *)
Fixpoint split_lines (raw : string) : list string :=
  match raw with
  | EmptyString => [""]
  | String c rest =>
      if Ascii.eqb c newline then "" :: split_lines rest
      else match split_lines rest with
           | [] => [String c ""]
           | l :: ls => String c l :: ls
           end
  end.

Definition load (raw fmt : string) : option (list string) :=
  if String.eqb fmt "csv" then Some (split_lines raw) else None.

Definition nl : string := String newline "".

(** The second group row is blank. *)
Definition read_file (path : string) : option string :=
  if String.eqb path "groups.csv" then Some ("editors" ++ nl ++ "" ++ nl ++ "writers")
  else if String.eqb path "users.csv" then Some ("alice" ++ nl ++ "bob")
  else if String.eqb path "emails.csv" then Some "alice@example.org"
  else None.

Definition opts : options :=
  mkOptions "csv" false ["users.csv"; "groups.csv"; "emails.csv"] None None None.

(** The same run with a groups file that does not exist. *)
Definition opts_missing_groups : options :=
  mkOptions "csv" false ["users.csv"; "nowhere.csv"; "emails.csv"] None None None.

Definition run (use_transactions : bool) (o : options) (s : Store) :=
  handle read_file load (ImportExport.import_data import_row use_transactions) o s.

End RestoreFixture.

Module SeedFixture.
Import RestoreAuth.

(** The auth tables with their references: the group names, the
    users with the names of the groups they are in, and the email
    addresses with the username they belong to. *)
Record Store := mkStore {
    groups : list string;
    users : list (string * list string);
    emails : list (string * string)
  }.

Definition empty : Store := mkStore [] [] [].

Fixpoint split (sep : Ascii.ascii) (s : string) : list string :=
  match s with
  | EmptyString => [""]
  | String c rest =>
      if Ascii.eqb c sep then "" :: split sep rest
      else match split sep rest with
           | [] => [String c ""]
           | l :: ls => String c l :: ls
           end
  end.

Definition comma : Ascii.ascii := Ascii.ascii_of_nat 44.
Definition semicolon : Ascii.ascii := Ascii.ascii_of_nat 59.

(** One row per line, the cells of a row separated by commas. *)
Definition load (raw fmt : string) : option (list (list string)) :=
  if String.eqb fmt "csv" then Some (map (split comma) (split RestoreFixture.newline raw))
  else None.

Definition mem (x : string) (l : list string) : bool := existsb (String.eqb x) l.

(** A group row is a name: a blank name is rejected, a name already
    in the table is refused by the store.  A user row is a username
    and the names of its groups, separated by semicolons: the user gets
    those of them that are in the groups table
    ([ManyToManyWidget(Group, field="name", separator=";")] looks the
    names up and keeps what it finds).  An email row is a username and
    an address: it fails when no user has that username
    ([ForeignKeyWidget(User, "username")]). *)
Definition import_row (r : resource) (row : list string) (s : Store)
  : ImportExport.row_outcome Store :=
  match r, row with
  | GroupResource, [name] =>
      if String.eqb name "" then ImportExport.Failed
      else if mem name (groups s) then ImportExport.DatabaseError
      else ImportExport.Saved (mkStore (groups s ++ [name]) (users s) (emails s))
  | UserResource, [username; names] =>
      if String.eqb username "" then ImportExport.Failed
      else if mem username (map fst (users s)) then ImportExport.DatabaseError
      else
        let found := filter (fun g => mem g (groups s)) (split semicolon names) in
        ImportExport.Saved (mkStore (groups s) (users s ++ [(username, found)]) (emails s))
  | EmailAddressResource, [username; address] =>
      if mem username (map fst (users s))
      then ImportExport.Saved (mkStore (groups s) (users s) (emails s ++ [(username, address)]))
      else ImportExport.Failed
  | _, _ => ImportExport.Failed
  end.

(** The batch: the groups file names the group editors and has a
    blank second row; the user alice is in the group editors. *)
Definition read_file (path : string) : option string :=
  if String.eqb path "groups.csv" then Some ("editors" ++ RestoreFixture.nl)
  else if String.eqb path "users.csv" then Some "alice,editors"
  else if String.eqb path "emails.csv" then Some "alice,alice@example.org"
  else None.

Definition opts : options :=
  mkOptions "csv" false ["users.csv"; "groups.csv"; "emails.csv"] None None None.

Definition run (use_transactions : bool) (o : options) (s : Store) :=
  handle read_file load (ImportExport.import_data import_row use_transactions) o s.

End SeedFixture.

(* ================================================================== *)
(** * Specification-side notions *)

(** The effective interval [[from, to)], open-ended when [to] is null. *)
Definition in_interval (from : date) (to : option date) (d : date) : Prop :=
  from <= d /\ match to with Some t => d < t | None => True end.

Definition PostalFacilityIdentity_covers (i : PostalFacilityIdentity.t) (d : date) : Prop :=
  in_interval (PostalFacilityIdentity.effective_from_date i)
              (PostalFacilityIdentity.effective_to_date i) d.

Definition AdministrativeUnitIdentity_covers (i : AdministrativeUnitIdentity.t) (d : date) : Prop :=
  in_interval (AdministrativeUnitIdentity.effective_from_date i)
              (AdministrativeUnitIdentity.effective_to_date i) d.

(** No date lies in the intervals of two different rows. *)
Definition non_overlapping {A} (covers : A -> date -> Prop) (rows : list A) : Prop :=
  forall i j d, In i rows -> In j rows -> covers i d -> covers j d -> i = j.

(** What right-open resolution over [rows] means for a resolver
    [resolve]: a date inside an interval yields that row; a date in no
    interval yields nothing; a row with a non-empty interval is the
    answer at its own start date; at its end date a row is no longer
    the answer (the answer is another row covering that date, or
    nothing); a null end date leaves the interval unbounded. *)
Definition right_open_resolution {A}
  (from : A -> date) (to : A -> option date) (rows : list A)
  (resolve : date -> option A) : Prop :=
  (forall d i, In i rows -> in_interval (from i) (to i) d -> resolve d = Some i)
  /\ (forall d, (forall i, In i rows -> ~ in_interval (from i) (to i) d) ->
                resolve d = None)
  /\ (forall i, In i rows -> (forall t, to i = Some t -> from i < t) ->
                resolve (from i) = Some i)
  /\ (forall i t, In i rows -> to i = Some t ->
                  match resolve t with
                  | None => True
                  | Some j => In j rows /\ j <> i /\ in_interval (from j) (to j) t
                  end)
  /\ (forall i d, In i rows -> to i = None -> from i <= d -> resolve d = Some i).

(** Referential integrity, as the store's foreign key constraints
    keep it: every reference resolves. *)
Definition resolves {A} (pk : A -> Z) (table : list A) (k : Z) : Prop :=
  exists r, related pk table k = Ok r.

Definition affiliation_units_exist (db : Database) : Prop :=
  forall a, In a (JurisdictionalAffiliations db) ->
            resolves AdministrativeUnit.administrative_unit_id (AdministrativeUnits db)
                     (JurisdictionalAffiliation.administrative_unit a).

Definition responsibility_groups_exist (db : Database) : Prop :=
  forall r, In r (AdministrativeUnitResponsibilities db) ->
            resolves Group.id (auth_group db) (AdministrativeUnitResponsibility.group r).

(** The affiliations [get_responsible_groups] selects for a facility
    identity, and the responsibility rows it then reads. *)
Definition selected_affiliation (now : datetime) (a : JurisdictionalAffiliation.t) : bool :=
  isnull (JurisdictionalAffiliation.effective_to_date a)
  || gte_now (JurisdictionalAffiliation.effective_to_date a) now.

Definition governing_units (db : Database) (now : datetime) (identity : PostalFacilityIdentity.t)
  : list Z :=
  map JurisdictionalAffiliation.administrative_unit
      (filter (selected_affiliation now) (PostalFacilityIdentity_jurisdictions db identity)).

Definition active_responsibilities (db : Database) (units : list Z)
  : list AdministrativeUnitResponsibility.t :=
  filter (fun r => existsb (Z.eqb (AdministrativeUnitResponsibility.administrative_unit r)) units
                   && AdministrativeUnitResponsibility.is_active r)
         (AdministrativeUnitResponsibilities db).

(* ================================================================== *)
(** * Fixtures *)

Module Fixture.

(** Richmond: identity A ("Richmond PO", 1860-01-01 to 1863-06-01)
    and identity B ("Richmond Branch", 1863-06-01, open). *)
Definition F : PostalFacility.t :=
  PostalFacility.mk 1 "US-VA-RICHMOND-001" (Some 375407000) (Some (-774360000)).

Definition identity_A : PostalFacilityIdentity.t :=
  PostalFacilityIdentity.mk 1 1 (date_of_ymd 1860 1 1) (Some (date_of_ymd 1863 6 1))
    "Richmond PO" "POST_OFFICE" true "" None None "".

Definition identity_B : PostalFacilityIdentity.t :=
  PostalFacilityIdentity.mk 2 1 (date_of_ymd 1863 6 1) None
    "Richmond Branch" "BRANCH" true "" None None "".

(** Identity A never closed: it overlaps identity B from 1863-06-01. *)
Definition identity_A_open : PostalFacilityIdentity.t :=
  PostalFacilityIdentity.mk 1 1 (date_of_ymd 1860 1 1) None
    "Richmond PO" "POST_OFFICE" true "" None None "".

(** Two units governing Richmond in 1863, and a renamed unit. *)
Definition unit_va : AdministrativeUnit.t := AdministrativeUnit.mk 10 "US-VA".
Definition unit_csa : AdministrativeUnit.t := AdministrativeUnit.mk 11 "CSA".
Definition unit_dak : AdministrativeUnit.t := AdministrativeUnit.mk 20 "DAK-TER".

Definition dak_1 : AdministrativeUnitIdentity.t :=
  AdministrativeUnitIdentity.mk 1 20 None (date_of_ymd 1861 3 2) (Some (date_of_ymd 1889 11 2))
    "Dakota Territory" "DT" "TERRITORY" 2 "INITIAL".

Definition dak_2 : AdministrativeUnitIdentity.t :=
  AdministrativeUnitIdentity.mk 2 20 None (date_of_ymd 1889 11 2) None
    "South Dakota" "SD" "STATE" 2 "RENAMED".

(** The first Dakota identity never closed. *)
Definition dak_1_open : AdministrativeUnitIdentity.t :=
  AdministrativeUnitIdentity.mk 1 20 None (date_of_ymd 1861 3 2) None
    "Dakota Territory" "DT" "TERRITORY" 2 "INITIAL".

Definition editors : Group.t := Group.mk 7 "Virginia editors".
Definition visitors : Group.t := Group.mk 8 "Visitors".

Definition resp_va : AdministrativeUnitResponsibility.t :=
  AdministrativeUnitResponsibility.mk 1 10 7 true "".
Definition resp_csa : AdministrativeUnitResponsibility.t :=
  AdministrativeUnitResponsibility.mk 2 11 7 true "".

Definition aff_va : JurisdictionalAffiliation.t :=
  JurisdictionalAffiliation.mk 1 2 10 (date_of_ymd 1863 6 1) None "Ordinance of 1788".
Definition aff_csa : JurisdictionalAffiliation.t :=
  JurisdictionalAffiliation.mk 2 2 11 (date_of_ymd 1863 6 1) None "Provisional Constitution".
Definition aff_dak : JurisdictionalAffiliation.t :=
  JurisdictionalAffiliation.mk 3 2 20 (date_of_ymd 1861 3 2) None "Organic Act".

(** An affiliation that only starts in the year 2999. *)
Definition aff_future : JurisdictionalAffiliation.t :=
  JurisdictionalAffiliation.mk 4 2 10 (date_of_ymd 2999 1 1) None "Planned transfer".

Definition pm : Postmark.t := Postmark.mk 1 2 "RICH-1863-01" "TOP" "5c" false "".

(** Noon of 2025-11-04. *)
Definition now : datetime := mkDatetime (date_of_ymd 2025 11 4) 43200000000.

Definition db_with
  (identities : list PostalFacilityIdentity.t)
  (unit_identities : list AdministrativeUnitIdentity.t)
  (responsibilities : list AdministrativeUnitResponsibility.t)
  (affiliations : list JurisdictionalAffiliation.t) : Database :=
  mkDatabase [F] identities [unit_va; unit_csa; unit_dak] unit_identities
             responsibilities affiliations [pm] [editors; visitors].

(** The well-formed store. *)
Definition db : Database :=
  db_with [identity_A; identity_B] [dak_1; dak_2] [resp_va] [aff_va].

(** Overlapping facility identities, with the rows in both orders. *)
Definition db_overlap : Database :=
  db_with [identity_A_open; identity_B] [dak_1_open; dak_2] [resp_va] [aff_va].
Definition db_overlap_reversed : Database :=
  db_with [identity_B; identity_A_open] [dak_2; dak_1_open] [resp_va] [aff_va].

(** Two governing units whose responsibilities name the same group. *)
Definition db_two_units : Database :=
  db_with [identity_A; identity_B] [dak_1; dak_2] [resp_va; resp_csa] [aff_va; aff_csa].

(** The only affiliation of identity B starts in the future. *)
Definition db_future : Database :=
  db_with [identity_A; identity_B] [dak_1; dak_2] [resp_va] [aff_future].

(** No responsibility rows at all. *)
Definition db_unassigned : Database :=
  db_with [identity_A; identity_B] [dak_1; dak_2] [] [aff_va].

(** A facility identity on the equator, with the facility elsewhere. *)
Definition identity_equator : PostalFacilityIdentity.t :=
  PostalFacilityIdentity.mk 3 1 (date_of_ymd 1900 1 1) None
    "Equator Station" "STATION" true "" (Some 0) (Some 1000000) "".

Definition editor : principal :=
  AuthenticatedUser (User.mk 1 "alice" false [editors]).
Definition outsider : principal :=
  AuthenticatedUser (User.mk 2 "bob" false [visitors]).
Definition root : principal :=
  AuthenticatedUser (User.mk 3 "root" true []).

End Fixture.

(** The imports a complete run performs, in order. *)
Definition import_plan (opts : RestoreAuth.options) : list RestoreAuth.resource :=
  let groups_path := RestoreAuth.py_or (RestoreAuth.groups_file opts)
                                       (RestoreAuth.positional (RestoreAuth.paths opts) 1) in
  let emails_path := RestoreAuth.py_or (RestoreAuth.emails_file opts)
                                       (RestoreAuth.positional (RestoreAuth.paths opts) 2) in
  (if RestoreAuth.truthy groups_path then [RestoreAuth.GroupResource] else [])
  ++ [RestoreAuth.UserResource]
  ++ (if RestoreAuth.truthy emails_path then [RestoreAuth.EmailAddressResource] else []).

(** Each import starts from the connection as its predecessor left
    it. *)
Fixpoint chained {Store} (c0 : RestoreAuth.connection Store)
  (cs : list (RestoreAuth.call Store)) : Prop :=
  match cs with
  | [] => True
  | c :: cs' => RestoreAuth.before c = c0 /\ chained (RestoreAuth.after c) cs'
  end.

(** What a run that started from the tables [s] left, against the
    plan: the imports made are an initial segment of the plan, each
    starting from the connection as its predecessor left it.  A run
    that commits commits the tables its last import left, the
    transaction being unmarked; a run that ends normally without
    committing found it marked.  A non-dry run that does not raise
    made every planned import. *)
Definition follows_plan {Store} (opts : RestoreAuth.options) (s : Store)
  (run : RestoreAuth.outcome Store * RestoreAuth.world Store) : Prop :=
  let w := snd run in
  let c := last (map RestoreAuth.after (RestoreAuth.calls w))
                (RestoreAuth.mkConnection s false) in
  (exists rest, (map RestoreAuth.res (RestoreAuth.calls w) ++ rest)%list = import_plan opts)
  /\ chained (RestoreAuth.mkConnection s false) (RestoreAuth.calls w)
  /\ (forall s', fst run = RestoreAuth.Committed s' ->
                 s' = RestoreAuth.tables c /\ RestoreAuth.needs_rollback c = false
                 /\ RestoreAuth.tables (RestoreAuth.conn w) = s')
  /\ (fst run = RestoreAuth.Discarded ->
      RestoreAuth.needs_rollback c = true /\ RestoreAuth.tables (RestoreAuth.conn w) = s)
  /\ ((forall e, fst run <> RestoreAuth.RolledBack e) ->
      RestoreAuth.dry_run opts = false ->
      map RestoreAuth.res (RestoreAuth.calls w) = import_plan opts).

(* ================================================================== *)
(** * Parent identity ([AdministrativeUnitIdentity]) *)

(** [AdministrativeUnitIdentity.get_parent_identity_at_this_time]: the
    parent's identity at this identity's start date. *)
Definition AdministrativeUnitIdentity_get_parent_identity_at_this_time
  (db : Database) (self : AdministrativeUnitIdentity.t)
  : result (option AdministrativeUnitIdentity.t) :=
  match AdministrativeUnitIdentity.parent_administrative_unit self with
  | None => Ok None
  | Some k =>
      parent <- related AdministrativeUnit.administrative_unit_id (AdministrativeUnits db) k ;;
      Ok (AdministrativeUnit_get_identity_at_date db parent
            (AdministrativeUnitIdentity.effective_from_date self))
  end.

(** [AdministrativeUnitIdentitySerializer.get_parent_name] *)
Definition AdministrativeUnitIdentitySerializer_get_parent_name
  (db : Database) (obj : AdministrativeUnitIdentity.t) : result (option string) :=
  match AdministrativeUnitIdentity.parent_administrative_unit obj with
  | Some k =>
      _ <- related AdministrativeUnit.administrative_unit_id (AdministrativeUnits db) k ;;
      parent_identity <- AdministrativeUnitIdentity_get_parent_identity_at_this_time db obj ;;
      Ok (match parent_identity with
          | Some i => Some (AdministrativeUnitIdentity.unit_name i)
          | None => None
          end)
  | None => Ok None
  end.

(** [AdministrativeUnitListSerializer.get_current_name] and
    [PostalFacilityListSerializer.get_current_name] *)
Definition AdministrativeUnitListSerializer_get_current_name
  (db : Database) (obj : AdministrativeUnit.t) : option string :=
  match AdministrativeUnit_get_current_identity db obj with
  | Some identity => Some (AdministrativeUnitIdentity.unit_name identity)
  | None => None
  end.

Definition PostalFacilityListSerializer_get_current_name
  (db : Database) (obj : PostalFacility.t) : option string :=
  match PostalFacility_get_current_identity db obj with
  | Some identity => Some (PostalFacilityIdentity.facility_name identity)
  | None => None
  end.

(* ================================================================== *)
(** * The admin column [PostmarkAdmin.get_admin_unit] *)

(** [JurisdictionalAffiliation] declares no ordering: [first()] orders
    by primary key. *)
Definition JurisdictionalAffiliation_pk_ordering (a : JurisdictionalAffiliation.t) : Z * Z :=
  (JurisdictionalAffiliation.jurisdictional_affiliation_id a, 0).

Definition PostmarkAdmin_get_admin_unit (db : Database) (obj : Postmark.t) : result string :=
  identity <- related PostalFacilityIdentity.postal_facility_identity_id
                      (PostalFacilityIdentities db)
                      (Postmark.postal_facility_identity obj) ;;
  let affiliations :=
    QuerySet.first JurisdictionalAffiliation_pk_ordering
      (filter (fun a => isnull (JurisdictionalAffiliation.effective_to_date a))
              (PostalFacilityIdentity_jurisdictions db identity)) in
  match affiliations with
  | Some aff =>
      identity <- JurisdictionalAffiliation_get_administrative_unit_identity db aff ;;
      Ok (match identity with
          | Some i => AdministrativeUnitIdentity.unit_name i
          | None => "-"
          end)
  | None => Ok "-"
  end.

(* ================================================================== *)
(** * View actions ([common/views.py]) *)

Definition HTTP_200_OK : Z := 200.
Definition HTTP_400_BAD_REQUEST : Z := 400.
Definition HTTP_403_FORBIDDEN : Z := 403.
Definition HTTP_404_NOT_FOUND : Z := 404.

(** A response: its status and its body, which is an error message, a
    status message or serialized data. *)
Inductive body (A : Type) :=
| ErrorBody (error : string)
| StatusBody (status : string)
| DataBody (data : A).
Arguments ErrorBody {A} error.
Arguments StatusBody {A} status.
Arguments DataBody {A} data.

Record Response (A : Type) := mkResponse { response_data : body A; response_status : Z }.
Arguments mkResponse {A} response_data response_status.
Arguments response_data {A} r.
Arguments response_status {A} r.

(** Truth value of an optional query parameter: missing and empty are
    false. *)
Definition param_given (s : option string) : bool :=
  match s with
  | Some s' => negb (String.eqb s' "")
  | None => false
  end.

(** What [PostalFacilityIdentitySerializer] adds to the row: the
    [coordinates] method field. *)
Record PostalFacilityIdentityData := mkIdentityData {
  identity_row : PostalFacilityIdentity.t;
  identity_coordinates : option (option Decimal * option Decimal)
}.

Definition PostalFacilityIdentitySerializer_data
  (db : Database) (identity : PostalFacilityIdentity.t) : result PostalFacilityIdentityData :=
  coordinates <- PostalFacilityIdentitySerializer_get_coordinates db identity ;;
  Ok (mkIdentityData identity coordinates).

Section IdentityAtDate.
(** [date.fromisoformat]: the date, or [None] for [ValueError]. *)
Variable fromisoformat : string -> option date.

(** [PostalFacilityViewSet.identity_at_date], from the facility
    [get_object()] found and the [date] query parameter. *)
Definition PostalFacilityViewSet_identity_at_date
  (db : Database) (facility : PostalFacility.t) (date_param : option string)
  : result (Response PostalFacilityIdentityData) :=
  if negb (param_given date_param) then
    Ok (mkResponse (ErrorBody "date parameter required (YYYY-MM-DD)") HTTP_400_BAD_REQUEST)
  else
    let date_str := match date_param with Some s => s | None => "" end in
    match fromisoformat date_str with
    | Some target_date =>
        match PostalFacility_get_identity_at_date db facility target_date with
        | Some found =>
            data <- PostalFacilityIdentitySerializer_data db found ;;
            Ok (mkResponse (DataBody data) HTTP_200_OK)
        | None =>
            Ok (mkResponse (ErrorBody ("No identity found for " ++ date_str))
                           HTTP_404_NOT_FOUND)
        end
    | None =>
        Ok (mkResponse (ErrorBody "Invalid date format, use YYYY-MM-DD") HTTP_400_BAD_REQUEST)
    end.
End IdentityAtDate.

(** [PostmarkViewSet.my_region]: the queryset of postmarks the action
    pages and serializes. *)
Definition PostmarkViewSet_my_region (db : Database) (request : Request)
  : result (list Postmark.t) :=
  let user_groups := principal_groups (user request) in
  let responsibilities :=
    filter (fun r =>
              existsb (fun g => AdministrativeUnitResponsibility.group r =? Group.id g)
                      user_groups
              && eqb (AdministrativeUnitResponsibility.is_active r) true)
           (AdministrativeUnitResponsibilities db) in
  responsible_units <-
    mapM (fun resp => related AdministrativeUnit.administrative_unit_id
                              (AdministrativeUnits db)
                              (AdministrativeUnitResponsibility.administrative_unit resp))
         responsibilities ;;
  let affiliations :=
    filter (fun a =>
              existsb (fun u => JurisdictionalAffiliation.administrative_unit a
                                =? AdministrativeUnit.administrative_unit_id u)
                      responsible_units
              && isnull (JurisdictionalAffiliation.effective_to_date a))
           (JurisdictionalAffiliations db) in
  facility_identities <-
    mapM (fun aff => related PostalFacilityIdentity.postal_facility_identity_id
                             (PostalFacilityIdentities db)
                             (JurisdictionalAffiliation.postal_facility_identity aff))
         affiliations ;;
  Ok (filter (fun p =>
                existsb (fun i => Postmark.postal_facility_identity p
                                  =? PostalFacilityIdentity.postal_facility_identity_id i)
                        facility_identities)
             (Postmarks db)).

Module PostmarkImage.
Record t := mk {
  postmark_image_id : Z;
  postmark : Z;
  original_filename : string;
  storage_filename : string;
  file_checksum : string;
  mime_type : string;
  image_width : Z;
  image_height : Z;
  file_size_bytes : Z;
  image_view : string;
  image_description : string;
  display_order : Z;
  uploaded_by : Z
}.
End PostmarkImage.

(** The body shared by [PostmarkImageViewSet.approve] and [reject]:
    the response, and the image row saved when the check passes. *)
Definition PostmarkImageViewSet_review (message : string)
  (db : Database) (now : datetime) (request : Request) (image : PostmarkImage.t)
  : result (Response unit * option PostmarkImage.t) :=
  postmark <- related Postmark.postmark_id (Postmarks db) (PostmarkImage.postmark image) ;;
  responsible_groups <- Postmark_get_responsible_groups db now postmark ;;
  let user_groups := principal_groups (user request) in
  if negb (existsb (fun group => group_in group responsible_groups) user_groups) then
    Ok (mkResponse (ErrorBody "You are not responsible for this region") HTTP_403_FORBIDDEN,
        None)
  else
    Ok (mkResponse (StatusBody message) HTTP_200_OK, Some image).

Definition PostmarkImageViewSet_approve := PostmarkImageViewSet_review "image approved".
Definition PostmarkImageViewSet_reject := PostmarkImageViewSet_review "image rejected".

(* ================================================================== *)
(** * [GeographicLocationFilter.filter_has_coordinates] *)

(** A column of the facility joined to an identity: [None] inside when
    the column is null, [None] outside when the join finds no row. *)
Definition joined_facility (db : Database) (i : PostalFacilityIdentity.t)
  : option PostalFacility.t :=
  find (fun f => PostalFacility.postal_facility_id f
                 =? PostalFacilityIdentity.postal_facility i)
       (PostalFacilities db).

Definition GeographicLocationFilter_filter_has_coordinates
  (db : Database) (queryset : list PostalFacilityIdentity.t) (value : option bool)
  : list PostalFacilityIdentity.t :=
  match value with
  | None => queryset
  | Some true =>
      filter (fun i => match joined_facility db i with
                       | Some f => negb (isnull (PostalFacility.latitude f))
                                   && negb (isnull (PostalFacility.longitude f))
                       | None => false
                       end)
             queryset
  | Some false =>
      filter (fun i => match joined_facility db i with
                       | Some f => isnull (PostalFacility.latitude f)
                                   || isnull (PostalFacility.longitude f)
                       | None => false
                       end)
             queryset
  end.

(* ================================================================== *)
(** * More fixtures *)

Module Fixture2.

(** A post office planned for the year 2999, already entered as open. *)
Definition identity_future : PostalFacilityIdentity.t :=
  PostalFacilityIdentity.mk 5 1 (date_of_ymd 2999 1 1) None
    "Richmond Orbital" "POST_OFFICE" true "" None None "".

Definition db_future_identity : Database :=
  Fixture.db_with [identity_future] [Fixture.dak_1; Fixture.dak_2]
                  [Fixture.resp_va] [Fixture.aff_va].

(** A county of Dakota, created in 1870 under unit 20. *)
Definition county : AdministrativeUnitIdentity.t :=
  AdministrativeUnitIdentity.mk 3 30 (Some 20) (date_of_ymd 1870 1 1) None
    "Yankton County" "YK" "COUNTY" 3 "INITIAL".

Definition va_1 : AdministrativeUnitIdentity.t :=
  AdministrativeUnitIdentity.mk 4 10 None (date_of_ymd 1788 6 25) None
    "Virginia" "VA" "STATE" 2 "INITIAL".

(** Richmond with two open affiliations and a named Virginia. *)
Definition db_named : Database :=
  Fixture.db_with [Fixture.identity_A; Fixture.identity_B]
                  [Fixture.dak_1; Fixture.dak_2; va_1]
                  [Fixture.resp_va; Fixture.resp_csa]
                  [Fixture.aff_csa; Fixture.aff_va].

Definition image : PostmarkImage.t :=
  PostmarkImage.mk 1 1 "front.jpg" "a1b2.jpg" "" "image/jpeg" 800 600 123456 "FULL" "" 0 1.

(** A parser that knows one date. *)
Definition fromisoformat (s : string) : option date :=
  if String.eqb s "1862-01-01" then Some (date_of_ymd 1862 1 1)
  else if String.eqb s "1850-01-01" then Some (date_of_ymd 1850 1 1)
  else None.

End Fixture2.

Module RestoreFixture2.
(** The test run as a dry run, and a run whose only path is empty
    (the flag, given empty, does not count either). *)
Definition opts_dry : RestoreAuth.options :=
  RestoreAuth.mkOptions "csv" true ["users.csv"; "groups.csv"; "emails.csv"] None None None.

Definition opts_no_users : RestoreAuth.options :=
  RestoreAuth.mkOptions "csv" false [""; "groups.csv"] (Some "") None None.
End RestoreFixture2.

(* ================================================================== *)
(** * The auth backup command ([backup_auth.Command.handle]) *)

Module BackupAuth.

Record options := mkOptions {
  paths : list string;
  users_file : option string;
  groups_file : option string;
  emails_file : option string
}.

(** The files on disk: the content stored under a path. *)
Definition FileSystem := string -> option string.

Definition write_file (path content : string) (fs : FileSystem) : FileSystem :=
  fun p => if String.eqb p path then Some content else fs p.

Section Command.
(** The auth tables. *)
Variable Store : Type.

(** The environment of the command: the export of a resource as CSV,
    [resource.export().export("csv")], and whether a path can be
    opened for writing. *)
Variable export_csv : RestoreAuth.resource -> Store -> string.
Variable writable : string -> bool.

Record world := mkWorld {
  files : FileSystem;
  stdout : list (RestoreAuth.style * string)
}.

Definition M (A : Type) := world -> result A * world.

Definition ret {A} (a : A) : M A := fun w => (Ok a, w).

Definition seq {A B} (m : M A) (k : A -> M B) : M B :=
  fun w => match m w with
           | (Ok a, w') => k a w'
           | (Raise e, w') => (Raise e, w')
           end.

Notation "m ;; k" := (seq m (fun _ => k))
  (at level 61, right associativity).

Definition raise {A} (e : exn) : M A := fun w => (Raise e, w).

Definition write (st : RestoreAuth.style) (s : string) : M unit :=
  fun w => (Ok tt, mkWorld (files w) (stdout w ++ [(st, s)])%list).

Definition when (b : bool) (m : M unit) : M unit :=
  if b then m else ret tt.

(** [with open(path, "w") as f: f.write(content)] *)
Definition open_write (path content : string) : M unit :=
  fun w => if writable path
           then (Ok tt, mkWorld (write_file path content (files w)) (stdout w))
           else (Raise (FileNotFoundError path), w).

Definition handle (opts : options) (store : Store) : M unit :=
  let paths := paths opts in
  let users_path := RestoreAuth.py_or (users_file opts) (RestoreAuth.positional paths 0) in
  let groups_path := RestoreAuth.py_or (groups_file opts) (RestoreAuth.positional paths 1) in
  let emails_path := RestoreAuth.py_or (emails_file opts) (RestoreAuth.positional paths 2) in
  when (negb (RestoreAuth.truthy users_path))
       (raise (SystemExit "You must provide at least a users export path.")) ;;
  (* Users (always) *)
  (let users_path := match users_path with Some p => p | None => "" end in
   let user_csv := export_csv RestoreAuth.UserResource store in
   open_write users_path user_csv ;;
   write RestoreAuth.SUCCESS ("Exported users to " ++ users_path)) ;;
  (* Groups (optional) *)
  (if RestoreAuth.truthy groups_path then
     let groups_path := match groups_path with Some p => p | None => "" end in
     let group_csv := export_csv RestoreAuth.GroupResource store in
     open_write groups_path group_csv ;;
     write RestoreAuth.SUCCESS ("Exported groups to " ++ groups_path)
   else
     write RestoreAuth.PLAIN "Groups export skipped (no groups path provided).") ;;
  (* Email addresses (optional) *)
  (if RestoreAuth.truthy emails_path then
     let emails_path := match emails_path with Some p => p | None => "" end in
     let email_csv := export_csv RestoreAuth.EmailAddressResource store in
     open_write emails_path email_csv ;;
     write RestoreAuth.SUCCESS ("Exported email addresses to " ++ emails_path)
   else
     write RestoreAuth.PLAIN "Email address export skipped (no emails path provided).") ;;
  write RestoreAuth.WARNING
        ("Reminder: these files contain sensitive data "
         ++ "(emails, password hashes) — encrypt them at rest.").

(** A run of the command on the files [fs]. *)
Definition run (opts : options) (store : Store) (fs : FileSystem) : result unit * world :=
  handle opts store (mkWorld fs []).
End Command.

Arguments run {Store} export_csv writable opts store fs.

(** The same command line, given to the restore command. *)
Definition restore_options (dry_run : bool) (opts : options) : RestoreAuth.options :=
  RestoreAuth.mkOptions "csv" dry_run (paths opts)
                        (users_file opts) (groups_file opts) (emails_file opts).

End BackupAuth.

(* ================================================================== *)
(** * Image checksums ([PostmarkImage.generate_checksum], [save]) *)

Module FileObject.
(** A binary file object: its bytes and the read position. *)
Record t := mk { content : list Byte.byte; position : nat }.

(** [read(n)]: up to [n] bytes from the position on. *)
Definition read (n : nat) (f : t) : list Byte.byte * t :=
  let block := firstn n (skipn (position f) (content f)) in
  (block, mk (content f) (position f + List.length block)).

Definition seek (pos : nat) (f : t) : t := mk (content f) pos.
End FileObject.

Section Checksum.
(** [hashlib.sha256()]: the fresh hash object, [update] and
    [hexdigest]. *)
Variable Hash : Type.
Variable sha256 : Hash.
Variable update : Hash -> list Byte.byte -> Hash.
Variable hexdigest : Hash -> string.

(** [for byte_block in iter(lambda: file_object.read(4096), b""):
    sha256_hash.update(byte_block)], at most [fuel] blocks. *)
Fixpoint read_blocks (fuel : nat) (sha256_hash : Hash) (file_object : FileObject.t)
  : Hash * FileObject.t :=
  match fuel with
  | O => (sha256_hash, file_object)
  | S fuel' =>
      let '(byte_block, file_object') := FileObject.read 4096 file_object in
      match byte_block with
      | [] => (sha256_hash, file_object')
      | _ :: _ => read_blocks fuel' (update sha256_hash byte_block) file_object'
      end
  end.

(** [PostmarkImage.generate_checksum]: the digest and the file object
    as it is left. *)
Definition PostmarkImage_generate_checksum (file_object : FileObject.t)
  : string * FileObject.t :=
  let '(sha256_hash, file_object') :=
    read_blocks (S (List.length (FileObject.content file_object))) sha256 file_object in
  (hexdigest sha256_hash, FileObject.seek 0 file_object').

Definition set_file_checksum (checksum : string) (i : PostmarkImage.t) : PostmarkImage.t :=
  PostmarkImage.mk
    (PostmarkImage.postmark_image_id i) (PostmarkImage.postmark i)
    (PostmarkImage.original_filename i) (PostmarkImage.storage_filename i)
    checksum
    (PostmarkImage.mime_type i) (PostmarkImage.image_width i)
    (PostmarkImage.image_height i) (PostmarkImage.file_size_bytes i)
    (PostmarkImage.image_view i) (PostmarkImage.image_description i)
    (PostmarkImage.display_order i) (PostmarkImage.uploaded_by i).

(** [PostmarkImage.save], with the [file_object] attribute when the
    instance has one: the row handed to the store, and the file
    object. *)
Definition PostmarkImage_save (self : PostmarkImage.t) (file_object : option FileObject.t)
  : PostmarkImage.t * option FileObject.t :=
  match file_object with
  | Some f =>
      if String.eqb (PostmarkImage.file_checksum self) "" then
        let '(checksum, f') := PostmarkImage_generate_checksum f in
        (set_file_checksum checksum self, Some f')
      else (self, file_object)
  | None => (self, file_object)
  end.
End Checksum.

(* ================================================================== *)
(** * [PostmarkViewSet.add_color] *)

Module Color.
Record t := mk { color_id : Z; color_name : string; color_value : string }.
End Color.

Module PostmarkColor.
(** The audit columns [created_by] and [modified_by] are kept here:
    both are required columns, [None] is a null. *)
Record t := mk {
  postmark_color_id : Z;
  postmark : Z;
  color : Z;
  created_by : option Z;
  modified_by : option Z
}.
End PostmarkColor.

(** [PostmarkColor.objects.create(...)]: the INSERT is refused when a
    required column is null or when the pair (postmark, color) is
    already there ([unique_together]); otherwise the row is added
    under a fresh primary key. *)
Definition PostmarkColor_create
  (table : list PostmarkColor.t) (postmark color : Z) (created_by modified_by : option Z)
  : string + list PostmarkColor.t :=
  if isnull created_by then inl "Column 'CreatedByUserID' cannot be null"
  else if isnull modified_by then inl "Column 'ModifiedByUserID' cannot be null"
  else if existsb (fun r => (PostmarkColor.postmark r =? postmark)
                            && (PostmarkColor.color r =? color)) table
  then inl "Duplicate entry"
  else
    let pk := 1 + fold_right Z.max 0 (map PostmarkColor.postmark_color_id table) in
    inr (table ++ [PostmarkColor.mk pk postmark color created_by modified_by])%list.

Section AddColor.
(** A value of the parsed request body, as far as [add_color] looks
    at it: its truth value, [bool(value)], and the store's reading of
    it as a primary key in [Color.objects.get(pk=value)], which is
    [int(value)]; a value that has no such reading makes the lookup
    raise a [ValueError] or [TypeError] with a message. *)
Variable Value : Type.
Variable truth : Value -> bool.
Variable to_pk : Value -> string + Z.

(** [add_color], from the postmark [get_object()] found, the acting
    user and [request.data.get('color_id')] ([None] when the key is
    missing or null): the response and the table as it is left. *)
Definition PostmarkViewSet_add_color
  (colors : list Color.t) (postmark_colors : list PostmarkColor.t)
  (request_user : Z) (postmark : Postmark.t) (color_id : option Value)
  : Response unit * list PostmarkColor.t :=
  let required :=
    (mkResponse (ErrorBody "color_id is required") HTTP_400_BAD_REQUEST, postmark_colors) in
  match color_id with
  | None => required
  | Some v =>
      if negb (truth v) then required
      else
        match to_pk v with
        | inr pk =>
            match find (fun c => Color.color_id c =? pk) colors with
            | Some color =>
                match PostmarkColor_create postmark_colors (Postmark.postmark_id postmark)
                                           (Color.color_id color) (Some request_user) None with
                | inr postmark_colors' =>
                    (mkResponse (StatusBody "color added") HTTP_200_OK, postmark_colors')
                | inl e => (mkResponse (ErrorBody e) HTTP_400_BAD_REQUEST, postmark_colors)
                end
            | None =>
                (mkResponse (ErrorBody "Color not found") HTTP_404_NOT_FOUND, postmark_colors)
            end
        | inl e => (mkResponse (ErrorBody e) HTTP_400_BAD_REQUEST, postmark_colors)
        end
  end.
End AddColor.

Module ColorFixture.
(** Request values: a JSON number, string or boolean. *)
Inductive Value := Num (n : Z) | Str (s : string) | Bool (b : bool).

Definition truth (v : Value) : bool :=
  match v with
  | Num n => negb (n =? 0)
  | Str s => negb (String.eqb s "")
  | Bool b => b
  end.

Definition digit (c : Ascii.ascii) : option Z :=
  let n := Z.of_nat (Ascii.nat_of_ascii c) in
  if (48 <=? n) && (n <=? 57) then Some (n - 48) else None.

Fixpoint digits (acc : Z) (s : string) : option Z :=
  match s with
  | EmptyString => Some acc
  | String c rest =>
      match digit c with
      | Some d => digits (10 * acc + d) rest
      | None => None
      end
  end.

(** The strings read here are the plain runs of decimal digits. *)
Definition to_pk (v : Value) : string + Z :=
  match v with
  | Num n => inr n
  | Bool b => inr (if b then 1 else 0)
  | Str s =>
      match s with
      | EmptyString => inl "Field 'color_id' expected a number"
      | _ => match digits 0 s with
             | Some n => inr n
             | None => inl "Field 'color_id' expected a number"
             end
      end
  end.

Definition colors : list Color.t := [Color.mk 1 "black" "#000000"].
End ColorFixture.

Module BackupFixture.
Import RestoreAuth.

(** One name per line. *)
Definition export_csv (r : resource) (s : RestoreFixture.Store) : string :=
  String.concat RestoreFixture.nl
    (map snd (filter (fun row => RestoreFixture.resource_eqb (fst row) r) s)).

(** Nothing can be written under [/proc]. *)
Definition writable (path : string) : bool :=
  negb (String.eqb path "/proc/groups.csv").

Definition store : RestoreFixture.Store :=
  [(GroupResource, "editors"); (UserResource, "alice"); (UserResource, "bob");
   (EmailAddressResource, "alice@example.org")].

Definition no_files : BackupAuth.FileSystem := fun _ => None.

Definition opts : BackupAuth.options :=
  BackupAuth.mkOptions ["users.csv"; "groups.csv"; "emails.csv"] None None None.

Definition opts_unwritable : BackupAuth.options :=
  BackupAuth.mkOptions ["users.csv"; "/proc/groups.csv"] None None None.

(** The groups flag names the users file. *)
Definition opts_same : BackupAuth.options :=
  BackupAuth.mkOptions ["auth.csv"] None (Some "auth.csv") None.
End BackupFixture.

Module ChecksumFixture.
(** A hash object that keeps what it was fed. *)
Definition Hash := list Byte.byte.
Definition sha256 : Hash := [].
Definition update (h : Hash) (block : list Byte.byte) : Hash := (h ++ block)%list.
Definition hexdigest (h : Hash) : string := string_of_list_byte h.

(** A file of 5000 bytes, read up to byte 2. *)
Definition file_object : FileObject.t :=
  FileObject.mk (repeat Byte.x61 5000) 2.
End ChecksumFixture.

(* ================================================================== *)
(** * Facts about querysets *)

Section QuerySetFacts.
Context {A : Type}.
Variable key : A -> Z * Z.

Local Abbreviation leb := (QuerySet.key_leb key).
Local Abbreviation insert := (QuerySet.insert key).
Local Abbreviation order_by := (QuerySet.order_by key).
Local Abbreviation first := (QuerySet.first key).

Lemma key_leb_refl x : leb x x = true.
Proof.
  unfold QuerySet.key_leb. destruct (key x) as [a b].
  rewrite Z.eqb_refl, Z.leb_refl. apply orb_true_r.
Qed.

Lemma key_leb_total x y : leb x y = false -> leb y x = true.
Proof.
  unfold QuerySet.key_leb. destruct (key x) as [a b], (key y) as [c d].
  intros H. apply orb_false_iff in H as [H1 H2].
  apply Z.ltb_ge in H1.
  destruct (Z.eqb_spec a c) as [->|Hne].
  - simpl in H2. apply Z.leb_gt in H2.
    rewrite Z.eqb_refl. replace (d <=? b) with true by (symmetry; apply Z.leb_le; lia).
    apply orb_true_r.
  - replace (c <? a) with true by (symmetry; apply Z.ltb_lt; lia). reflexivity.
Qed.

Lemma insert_perm x l : Permutation (insert x l) (x :: l).
Proof.
  induction l as [|y l IH]; simpl.
  - apply Permutation_refl.
  - destruct (leb x y).
    + apply Permutation_refl.
    + eapply Permutation_trans; [apply perm_skip, IH | apply perm_swap].
Qed.

Lemma order_by_perm l : Permutation (order_by l) l.
Proof.
  induction l as [|x l IH]; simpl.
  - apply perm_nil.
  - eapply Permutation_trans; [apply insert_perm | apply perm_skip, IH].
Qed.

Lemma first_In l x : first l = Some x -> In x l.
Proof.
  unfold QuerySet.first. intros H.
  apply (Permutation_in x (order_by_perm l)).
  destruct (order_by l); simpl in H; [discriminate | injection H as ->; now left].
Qed.

Lemma first_nil_iff l : first l = None <-> l = [].
Proof.
  unfold QuerySet.first. split.
  - intros H. destruct (order_by l) eqn:E; [|discriminate].
    apply Permutation_nil. rewrite <- E. apply order_by_perm.
  - intros ->. reflexivity.
Qed.

Lemma hd_insert x l :
  hd_error (insert x l) =
  match hd_error l with
  | None => Some x
  | Some y => if leb x y then Some x else Some y
  end.
Proof.
  destruct l as [|y l]; simpl; [reflexivity|]. now destruct (leb x y).
Qed.

(** [first] one row at a time: the new row wins unless the best of
    the others sorts strictly before it. *)
Lemma first_cons x l :
    first (x :: l) =
    match first l with
    | None => Some x
    | Some y => if leb x y then Some x else Some y
    end.
  Proof. unfold QuerySet.first. simpl. apply hd_insert. Qed.

(** A queryset all of whose rows are the same row yields that row. *)
Lemma first_unique l x :
  In x l -> (forall y, In y l -> y = x) -> first l = Some x.
Proof.
  intros Hin Hall. destruct (first l) as [y|] eqn:E.
  - f_equal. apply Hall. now apply first_In.
  - apply first_nil_iff in E. subst l. destruct Hin.
Qed.

(** A row that sorts strictly before every other row is the first,
    wherever the store yields it. *)
Lemma first_strict_min l x :
  In x l -> (forall y, In y l -> y = x \/ leb y x = false) -> first l = Some x.
Proof.
  induction l as [|a l IH]; intros Hin Hmin; [destruct Hin|].
  rewrite first_cons.
  destruct (Hmin a (or_introl eq_refl)) as [->|Ha].
  - destruct (first l) as [y|] eqn:E; [|reflexivity].
    destruct (leb x y) eqn:Hxy; [reflexivity|].
    destruct (Hmin y (or_intror (first_In _ _ E))) as [->|Hy]; [reflexivity|].
    apply key_leb_total in Hxy. congruence.
  - destruct Hin as [->|Hin]; [rewrite key_leb_refl in Ha; discriminate|].
    rewrite IH; [now rewrite Ha | assumption |].
    intros y Hy. apply Hmin. now right.
Qed.

Lemma first_strict_min_perm l l' x :
  Permutation l l' ->
  In x l -> (forall y, In y l -> y = x \/ leb y x = false) -> first l' = Some x.
Proof.
  intros P Hin Hmin. apply first_strict_min.
  - eapply Permutation_in; eassumption.
  - intros y Hy. apply Hmin. eapply Permutation_in; [apply Permutation_sym|]; eassumption.
Qed.

Lemma key_leb_trans x y z : leb x y = true -> leb y z = true -> leb x z = true.
Proof.
  unfold QuerySet.key_leb.
  destruct (key x) as [a b], (key y) as [c d], (key z) as [e f].
  rewrite !orb_true_iff, !andb_true_iff, !Z.ltb_lt, !Z.eqb_eq, !Z.leb_le. lia.
Qed.

Lemma key_leb_antisym x y : leb x y = true -> leb y x = true -> key x = key y.
Proof.
  unfold QuerySet.key_leb. destruct (key x) as [a b], (key y) as [c d].
  rewrite !orb_true_iff, !andb_true_iff, !Z.ltb_lt, !Z.eqb_eq, !Z.leb_le.
  intros H1 H2. f_equal; lia.
Qed.

(** The row [first] yields has a least sort key. *)
Lemma first_min l x : first l = Some x -> forall y, In y l -> leb x y = true.
Proof.
  revert x. induction l as [|a l IH]; intros x H y Hy; [destruct Hy|].
  rewrite first_cons in H. destruct (first l) as [z|] eqn:E.
  - destruct (leb a z) eqn:Haz; injection H as <-.
    + destruct Hy as [<-|Hy]; [apply key_leb_refl|].
      eapply key_leb_trans; [exact Haz | now apply IH].
    + destruct Hy as [<-|Hy]; [now apply key_leb_total | now apply IH].
  - injection H as <-. apply first_nil_iff in E. subst l.
    destruct Hy as [<-|[]]. apply key_leb_refl.
Qed.

(** The order of rows with equal keys only decides which of them is
    yielded: in whatever order the store holds the same rows, [first]
    yields a row with the same sort key. *)
Lemma first_perm_same_key l l' x x' :
  Permutation l l' -> first l = Some x -> first l' = Some x' -> key x = key x'.
Proof.
  intros P H H'. apply key_leb_antisym.
  - apply (first_min l x H). apply (Permutation_in x' (Permutation_sym P)).
    now apply first_In.
  - apply (first_min l' x' H'). apply (Permutation_in x P). now apply first_In.
Qed.
End QuerySetFacts.

(* ================================================================== *)
(** * Interval semantics of the date filter *)

Lemma at_date_filter_spec from to d :
  lte from d && (isnull to || gt to d) = true <-> in_interval from to d.
Proof.
  unfold lte, in_interval, isnull, gt. rewrite andb_true_iff, Z.leb_le.
  destruct to as [t|]; simpl; [rewrite Z.ltb_lt|]; intuition.
Qed.

Section Resolution.
Context {A : Type}.
Variables (from : A -> date) (to : A -> option date) (key : A -> Z * Z).
Variable rows : list A.

Let at_date (d : date) (i : A) : bool :=
  lte (from i) d && (isnull (to i) || gt (to i) d).

Let resolve (d : date) : option A := QuerySet.first key (filter (at_date d) rows).

Lemma resolve_Some d j :
  resolve d = Some j -> In j rows /\ in_interval (from j) (to j) d.
Proof.
  intros H. apply first_In, filter_In in H as [Hin Hp].
  split; [assumption | now apply at_date_filter_spec].
Qed.

Lemma resolve_covering d i :
  non_overlapping (fun i d => in_interval (from i) (to i) d) rows ->
  In i rows -> in_interval (from i) (to i) d -> resolve d = Some i.
Proof.
  intros Hno Hin Hcov. apply first_unique.
  - apply filter_In. split; [assumption | now apply at_date_filter_spec].
  - intros y Hy. apply filter_In in Hy as [Hy Hp].
    apply at_date_filter_spec in Hp. exact (Hno y i d Hy Hin Hp Hcov).
Qed.

Lemma resolve_right_open :
  non_overlapping (fun i d => in_interval (from i) (to i) d) rows ->
  right_open_resolution from to rows resolve.
Proof.
  intros Hno. repeat split.
  - intros d i. now apply resolve_covering.
  - intros d Hnone. destruct (resolve d) as [j|] eqn:E; [|reflexivity].
    apply resolve_Some in E as [Hin Hcov]. now destruct (Hnone j Hin).
  - intros i Hin Hne. apply resolve_covering; [assumption | assumption |].
    split; [lia|]. destruct (to i) as [t|] eqn:E; [now apply Hne | exact I].
  - intros i t Hin Hto. destruct (resolve t) as [j|] eqn:E; [|exact I].
    apply resolve_Some in E as [Hj Hcov]. repeat split; try assumption; try apply Hcov.
    intros ->. destruct Hcov as [_ Hlt]. rewrite Hto in Hlt. lia.
  - intros i d Hin Hto Hle. apply resolve_covering; [assumption | assumption |].
    split; [assumption | now rewrite Hto].
Qed.
End Resolution.

(** ** C2 *)

(** C2. Right-open interval semantics of identity resolution.  For a
    postal facility, and likewise for an administrative unit, whose
    identity intervals do not overlap, [get_identity_at_date d] is the
    identity whose interval [[effective_from, effective_to)] contains
    [d]: the identity itself at [d = effective_from], never the
    expiring identity at [d = effective_to] (the next one, or none),
    any later date when [effective_to] is null, and [None] when no
    interval contains [d].  The result is an [option]: there is no
    exceptional outcome. *)
Theorem get_identity_at_date_right_open :
  (forall db f,
      non_overlapping PostalFacilityIdentity_covers (PostalFacility_identities db f) ->
      right_open_resolution PostalFacilityIdentity.effective_from_date
                            PostalFacilityIdentity.effective_to_date
                            (PostalFacility_identities db f)
                            (PostalFacility_get_identity_at_date db f))
  /\
  (forall db u,
      non_overlapping AdministrativeUnitIdentity_covers (AdministrativeUnit_identities db u) ->
      right_open_resolution AdministrativeUnitIdentity.effective_from_date
                            AdministrativeUnitIdentity.effective_to_date
                            (AdministrativeUnit_identities db u)
                            (AdministrativeUnit_get_identity_at_date db u)).
Proof.
  split; intros db e Hno.
  - exact (resolve_right_open _ _ PostalFacilityIdentity.ordering _ Hno).
  - exact (resolve_right_open _ _ AdministrativeUnitIdentity.ordering _ Hno).
Qed.

(** The Richmond scenario: A at 1862-01-01, B at 1863-06-01 (the day A
    expires) and at 1870-01-01, nothing at 1850-01-01. *)
Lemma get_identity_at_date_right_open_witness :
  non_overlapping PostalFacilityIdentity_covers
                  (PostalFacility_identities Fixture.db Fixture.F)
  /\ PostalFacility_get_identity_at_date Fixture.db Fixture.F (date_of_ymd 1862 1 1)
     = Some Fixture.identity_A
  /\ PostalFacility_get_identity_at_date Fixture.db Fixture.F (date_of_ymd 1863 6 1)
     = Some Fixture.identity_B
  /\ PostalFacility_get_identity_at_date Fixture.db Fixture.F (date_of_ymd 1870 1 1)
     = Some Fixture.identity_B
  /\ PostalFacility_get_identity_at_date Fixture.db Fixture.F (date_of_ymd 1850 1 1)
     = None.
Proof.
  assert (Hno : non_overlapping PostalFacilityIdentity_covers
                                (PostalFacility_identities Fixture.db Fixture.F)).
  { intros i j d Hi Hj Ci Cj. vm_compute in Hi, Hj.
    destruct Hi as [<-|[<-|[]]]; destruct Hj as [<-|[<-|[]]];
      try reflexivity;
      unfold PostalFacilityIdentity_covers, in_interval in Ci, Cj; simpl in Ci, Cj; lia. }
  split; [exact Hno|].
  destruct (proj1 get_identity_at_date_right_open Fixture.db Fixture.F Hno)
    as (Hin & Hout & Hfrom & _ & Hopen).
  split; [|split; [|split]].
  - apply Hin; [now left | vm_compute; split; [discriminate | reflexivity]].
  - apply (Hfrom Fixture.identity_B); [right; now left | discriminate].
  - apply Hopen; [right; now left | reflexivity | vm_compute; discriminate].
  - apply Hout. intros i Hi [Hle _]. vm_compute in Hi.
    destruct Hi as [<-|[<-|[]]]; vm_compute in Hle; now apply Hle.
Defined.

(* ================================================================== *)
(** * Overlapping identities: which row [first()] yields *)

Lemma PostalFacility_identities_In db f i :
  In i (PostalFacility_identities db f) <->
  In i (PostalFacilityIdentities db)
  /\ PostalFacilityIdentity.postal_facility i = PostalFacility.postal_facility_id f.
Proof. unfold PostalFacility_identities. rewrite filter_In, Z.eqb_eq. reflexivity. Qed.

Lemma AdministrativeUnit_identities_In db u i :
  In i (AdministrativeUnit_identities db u) <->
  In i (AdministrativeUnitIdentities db)
  /\ AdministrativeUnitIdentity.administrative_unit i = AdministrativeUnit.administrative_unit_id u.
Proof. unfold AdministrativeUnit_identities. rewrite filter_In, Z.eqb_eq. reflexivity. Qed.

(** Descending ordering: among unit identities of one unit, a row
    with a later start sorts strictly first. *)
Lemma unit_ordering_later_first i j :
  AdministrativeUnitIdentity.administrative_unit j = AdministrativeUnitIdentity.administrative_unit i ->
  AdministrativeUnitIdentity.effective_from_date j < AdministrativeUnitIdentity.effective_from_date i ->
  QuerySet.key_leb AdministrativeUnitIdentity.ordering j i = false.
Proof.
  intros Hu Hlt. unfold QuerySet.key_leb, AdministrativeUnitIdentity.ordering.
  rewrite Hu, Z.ltb_irrefl, Z.eqb_refl. simpl. apply Z.leb_gt. lia.
Qed.

(** Ascending ordering: among facility identities of one facility, a
    row with an earlier start sorts strictly first. *)
Lemma facility_ordering_earlier_first i j :
  PostalFacilityIdentity.postal_facility j = PostalFacilityIdentity.postal_facility i ->
  PostalFacilityIdentity.effective_from_date i < PostalFacilityIdentity.effective_from_date j ->
  QuerySet.key_leb PostalFacilityIdentity.ordering j i = false.
Proof.
  intros Hf Hlt. unfold QuerySet.key_leb, PostalFacilityIdentity.ordering.
  rewrite Hf, Z.ltb_irrefl, Z.eqb_refl. simpl. apply Z.leb_gt. lia.
Qed.

(** The queryset [first()] is taken of, for either resolver of a unit:
    the unit's identities that pass the test [p]. *)
Lemma AdministrativeUnit_latest_first db db' u p i :
  Permutation (AdministrativeUnitIdentities db) (AdministrativeUnitIdentities db') ->
  In i (filter p (AdministrativeUnit_identities db u)) ->
  (forall j, In j (filter p (AdministrativeUnit_identities db u)) ->
             j = i \/ AdministrativeUnitIdentity.effective_from_date j
                      < AdministrativeUnitIdentity.effective_from_date i) ->
  QuerySet.first AdministrativeUnitIdentity.ordering
                 (filter p (AdministrativeUnit_identities db' u)) = Some i.
Proof.
  intros P Hin Hlate.
  assert (Hperm : forall j, In j (filter p (AdministrativeUnit_identities db' u)) ->
                            In j (filter p (AdministrativeUnit_identities db u))).
  { intros j. rewrite !filter_In, !AdministrativeUnit_identities_In.
    intros [[Hj Hu] Hp]. repeat split; try assumption.
    eapply Permutation_in; [apply Permutation_sym|]; eassumption. }
  apply first_strict_min.
  - revert Hin. rewrite !filter_In, !AdministrativeUnit_identities_In.
    intros [[Hj Hu] Hp]. repeat split; try assumption.
    eapply Permutation_in; eassumption.
  - intros j Hj. apply Hperm in Hj. destruct (Hlate j Hj) as [->|Hlt]; [now left|right].
    apply unit_ordering_later_first; [|assumption].
    apply filter_In, proj1, AdministrativeUnit_identities_In, proj2 in Hj.
    apply filter_In, proj1, AdministrativeUnit_identities_In, proj2 in Hin.
    congruence.
Qed.

(** For an administrative unit the latest start wins, at a date and
    for the current identity, in whatever order the rows are stored. *)
Lemma AdministrativeUnit_latest_effective_from_wins db db' u :
  Permutation (AdministrativeUnitIdentities db) (AdministrativeUnitIdentities db') ->
  (forall d i,
      In i (AdministrativeUnit_identities db u) ->
      AdministrativeUnitIdentity_covers i d ->
      (forall j, In j (AdministrativeUnit_identities db u) ->
                 AdministrativeUnitIdentity_covers j d ->
                 j = i \/ AdministrativeUnitIdentity.effective_from_date j
                          < AdministrativeUnitIdentity.effective_from_date i) ->
      AdministrativeUnit_get_identity_at_date db' u d = Some i)
  /\
  (forall i,
      In i (AdministrativeUnit_identities db u) ->
      AdministrativeUnitIdentity.effective_to_date i = None ->
      (forall j, In j (AdministrativeUnit_identities db u) ->
                 AdministrativeUnitIdentity.effective_to_date j = None ->
                 j = i \/ AdministrativeUnitIdentity.effective_from_date j
                          < AdministrativeUnitIdentity.effective_from_date i) ->
      AdministrativeUnit_get_current_identity db' u = Some i).
Proof.
  intros P. split.
  - intros d i Hin Hcov Hlate. apply (AdministrativeUnit_latest_first db db'); [assumption| |].
    + apply filter_In. split; [assumption | now apply at_date_filter_spec].
    + intros j Hj. apply filter_In in Hj as [Hj Hp]. apply Hlate; [assumption|].
      now apply at_date_filter_spec.
  - intros i Hin Hnull Hlate. apply (AdministrativeUnit_latest_first db db'); [assumption| |].
    + apply filter_In. split; [assumption | now rewrite Hnull].
    + intros j Hj. apply filter_In in Hj as [Hj Hp]. apply Hlate; [assumption|].
      now destruct (AdministrativeUnitIdentity.effective_to_date j).
Qed.

Lemma PostalFacility_earliest_first db db' f p i :
  Permutation (PostalFacilityIdentities db) (PostalFacilityIdentities db') ->
  In i (filter p (PostalFacility_identities db f)) ->
  (forall j, In j (filter p (PostalFacility_identities db f)) ->
             j = i \/ PostalFacilityIdentity.effective_from_date i
                      < PostalFacilityIdentity.effective_from_date j) ->
  QuerySet.first PostalFacilityIdentity.ordering
                 (filter p (PostalFacility_identities db' f)) = Some i.
Proof.
  intros P Hin Hearly.
  assert (Hperm : forall j, In j (filter p (PostalFacility_identities db' f)) ->
                            In j (filter p (PostalFacility_identities db f))).
  { intros j. rewrite !filter_In, !PostalFacility_identities_In.
    intros [[Hj Hf] Hp]. repeat split; try assumption.
    eapply Permutation_in; [apply Permutation_sym|]; eassumption. }
  apply first_strict_min.
  - revert Hin. rewrite !filter_In, !PostalFacility_identities_In.
    intros [[Hj Hf] Hp]. repeat split; try assumption.
    eapply Permutation_in; eassumption.
  - intros j Hj. apply Hperm in Hj. destruct (Hearly j Hj) as [->|Hlt]; [now left|right].
    apply facility_ordering_earlier_first; [|assumption].
    apply filter_In, proj1, PostalFacility_identities_In, proj2 in Hj.
    apply filter_In, proj1, PostalFacility_identities_In, proj2 in Hin.
    congruence.
Qed.

(** For a postal facility the earliest start wins, at a date and for
    the current identity, in whatever order the rows are stored. *)
Lemma PostalFacility_earliest_effective_from_wins db db' f :
  Permutation (PostalFacilityIdentities db) (PostalFacilityIdentities db') ->
  (forall d i,
      In i (PostalFacility_identities db f) ->
      PostalFacilityIdentity_covers i d ->
      (forall j, In j (PostalFacility_identities db f) ->
                 PostalFacilityIdentity_covers j d ->
                 j = i \/ PostalFacilityIdentity.effective_from_date i
                          < PostalFacilityIdentity.effective_from_date j) ->
      PostalFacility_get_identity_at_date db' f d = Some i)
  /\
  (forall i,
      In i (PostalFacility_identities db f) ->
      PostalFacilityIdentity.effective_to_date i = None ->
      (forall j, In j (PostalFacility_identities db f) ->
                 PostalFacilityIdentity.effective_to_date j = None ->
                 j = i \/ PostalFacilityIdentity.effective_from_date i
                          < PostalFacilityIdentity.effective_from_date j) ->
      PostalFacility_get_current_identity db' f = Some i).
Proof.
  intros P. split.
  - intros d i Hin Hcov Hearly. apply (PostalFacility_earliest_first db db'); [assumption| |].
    + apply filter_In. split; [assumption | now apply at_date_filter_spec].
    + intros j Hj. apply filter_In in Hj as [Hj Hp]. apply Hearly; [assumption|].
      now apply at_date_filter_spec.
  - intros i Hin Hnull Hearly. apply (PostalFacility_earliest_first db db'); [assumption| |].
    + apply filter_In. split; [assumption | now rewrite Hnull].
    + intros j Hj. apply filter_In in Hj as [Hj Hp]. apply Hearly; [assumption|].
      now destruct (PostalFacilityIdentity.effective_to_date j).
Qed.

(** ** C1 *)

(** C1. Tie-break between overlapping identities, evaluated on the
    Richmond facility with identity A (from 1860-01-01) never closed
    and identity B (from 1863-06-01) open.  Both intervals contain
    1900-01-01 and both have a null end date.  In either row order
    [get_identity_at_date] and [get_current_identity] of the facility
    yield identity A, the one with the EARLIER start, not identity B.
    On the same shape of data the administrative unit resolvers yield
    the identity with the later start. *)
Theorem PostalFacility_overlap_yields_earlier_identity :
  let d := date_of_ymd 1900 1 1 in
  PostalFacilityIdentity_covers Fixture.identity_A_open d
  /\ PostalFacilityIdentity_covers Fixture.identity_B d
  /\ PostalFacilityIdentity.effective_from_date Fixture.identity_A_open
     < PostalFacilityIdentity.effective_from_date Fixture.identity_B
  /\ PostalFacility_get_identity_at_date Fixture.db_overlap Fixture.F d
     = Some Fixture.identity_A_open
  /\ PostalFacility_get_identity_at_date Fixture.db_overlap_reversed Fixture.F d
     = Some Fixture.identity_A_open
  /\ PostalFacility_get_current_identity Fixture.db_overlap Fixture.F
     = Some Fixture.identity_A_open
  /\ PostalFacility_get_current_identity Fixture.db_overlap_reversed Fixture.F
     = Some Fixture.identity_A_open
  /\ AdministrativeUnit_get_identity_at_date Fixture.db_overlap Fixture.unit_dak d
     = Some Fixture.dak_2
  /\ AdministrativeUnit_get_identity_at_date Fixture.db_overlap_reversed Fixture.unit_dak d
     = Some Fixture.dak_2
  /\ AdministrativeUnit_get_current_identity Fixture.db_overlap_reversed Fixture.unit_dak
     = Some Fixture.dak_2.
Proof.
  cbv zeta. unfold PostalFacilityIdentity_covers, in_interval.
  repeat split;
    first [ reflexivity | exact I | vm_compute; reflexivity
          | vm_compute; intro H; discriminate H ].
Qed.

(* ================================================================== *)
(** * Following foreign keys *)

Lemma related_Ok {A} (pk : A -> Z) table k r :
  related pk table k = Ok r -> In r table /\ pk r = k.
Proof.
  unfold related. destruct (find _ table) as [r'|] eqn:E; [|discriminate].
  intros [= <-]. apply find_some in E as [Hin Hpk]. split; [assumption | now apply Z.eqb_eq].
Qed.

Lemma mapM_related {A B} (pk : A -> Z) (table : list A) (fk : B -> Z) (l : list B) :
  (forall x, In x l -> resolves pk table (fk x)) ->
  exists rs, mapM (fun x => related pk table (fk x)) l = Ok rs
             /\ map pk rs = map fk l.
Proof.
  induction l as [|x l IH]; intros Hres; simpl.
  - exists []. split; reflexivity.
  - destruct (Hres x (or_introl eq_refl)) as [r Hr].
    destruct IH as (rs & Hrs & Hmap); [intros y Hy; apply Hres; now right|].
    exists (r :: rs). rewrite Hr, Hrs. simpl. split; [reflexivity|].
    f_equal; [now apply related_Ok in Hr | assumption].
Qed.

Lemma existsb_through_map {A B} (f : B -> bool) (g : A -> B) (l : list A) :
  existsb (fun x => f (g x)) l = existsb f (map g l).
Proof. induction l as [|x l IH]; simpl; [reflexivity | now rewrite IH]. Qed.

(* ================================================================== *)
(** * Responsible groups *)

(** What [get_responsible_groups] computes, once every reference
    resolves: the groups of the active responsibility rows of the
    selected affiliations' units, one entry per row. *)
Lemma Postmark_get_responsible_groups_eq db now p identity :
  related PostalFacilityIdentity.postal_facility_identity_id (PostalFacilityIdentities db)
          (Postmark.postal_facility_identity p) = Ok identity ->
  affiliation_units_exist db ->
  responsibility_groups_exist db ->
  exists groups,
    Postmark_get_responsible_groups db now p = Ok groups
    /\ map Group.id groups
       = map AdministrativeUnitResponsibility.group
             (active_responsibilities db (governing_units db now identity)).
Proof.
  intros Hid Haff Hresp. unfold Postmark_get_responsible_groups. rewrite Hid. simpl.
  match goal with
  | |- context [mapM ?f (filter ?sel ?js)] =>
      destruct (mapM_related AdministrativeUnit.administrative_unit_id (AdministrativeUnits db)
                  JurisdictionalAffiliation.administrative_unit (filter sel js))
        as (units & Hunits & Hmap)
  end.
  { intros a Ha. apply Haff. apply filter_In, proj1 in Ha.
    unfold PostalFacilityIdentity_jurisdictions in Ha. now apply filter_In in Ha. }
  rewrite Hunits. simpl.
  match goal with
  | |- context [mapM ?f (filter ?act ?rs)] =>
      assert (Hfilter : filter act rs
                        = active_responsibilities db (governing_units db now identity))
  end.
  { unfold active_responsibilities, governing_units, selected_affiliation.
    apply filter_ext. intros r. rewrite <- Hmap.
    rewrite <- (existsb_through_map
                  (Z.eqb (AdministrativeUnitResponsibility.administrative_unit r))).
    now destruct (AdministrativeUnitResponsibility.is_active r). }
  rewrite Hfilter.
  apply (mapM_related Group.id (auth_group db) AdministrativeUnitResponsibility.group).
  intros r Hr. apply Hresp. unfold active_responsibilities in Hr. now apply filter_In in Hr.
Qed.

(** ** C3 *)

(** C3 (as the code has it).  With every reference resolving,
    [get_responsible_groups] returns, without raising, one group per
    active responsibility row of the governing units, in row order: the
    empty list when there is no such row, and a group named by the
    responsibilities of several governing units once per row, not
    once. *)
Theorem get_responsible_groups_one_entry_per_responsibility db now p identity :
  related PostalFacilityIdentity.postal_facility_identity_id (PostalFacilityIdentities db)
          (Postmark.postal_facility_identity p) = Ok identity ->
  affiliation_units_exist db ->
  responsibility_groups_exist db ->
  exists groups,
    Postmark_get_responsible_groups db now p = Ok groups
    /\ map Group.id groups
       = map AdministrativeUnitResponsibility.group
             (active_responsibilities db (governing_units db now identity))
    /\ (active_responsibilities db (governing_units db now identity) = [] -> groups = [])
    /\ (forall g, In g (map Group.id groups) <->
                  exists r, In r (AdministrativeUnitResponsibilities db)
                            /\ AdministrativeUnitResponsibility.is_active r = true
                            /\ In (AdministrativeUnitResponsibility.administrative_unit r)
                                  (governing_units db now identity)
                            /\ AdministrativeUnitResponsibility.group r = g).
Proof.
  intros Hid Haff Hresp.
  destruct (Postmark_get_responsible_groups_eq db now p identity Hid Haff Hresp)
    as (groups & Hrun & Hmap).
  exists groups. split; [assumption|]. split; [assumption|]. split.
  - intros Hnil. rewrite Hnil in Hmap. now destruct groups.
  - intros g. rewrite Hmap, in_map_iff. unfold active_responsibilities.
    split.
    + intros (r & Hg & Hr). apply filter_In in Hr as [Hr Hp].
      apply andb_true_iff in Hp as [Hu Ha]. apply existsb_exists in Hu as (u & Hu & Heq).
      apply Z.eqb_eq in Heq. exists r. repeat split; try assumption. now rewrite Heq.
    + intros (r & Hr & Ha & Hu & Hg). exists r. split; [assumption|].
      apply filter_In. split; [assumption|]. apply andb_true_iff. split; [|assumption].
      apply existsb_exists. eexists. split; [exact Hu | apply Z.eqb_refl].
Qed.

Lemma fixture_units_exist ids uids resps affs :
  (forall a, In a affs -> In (JurisdictionalAffiliation.administrative_unit a) [10; 11; 20]) ->
  affiliation_units_exist (Fixture.db_with ids uids resps affs).
Proof.
  intros H a Ha. specialize (H a Ha). unfold resolves. simpl in *.
  destruct H as [<-|[<-|[<-|[]]]]; eexists; reflexivity.
Defined.

Lemma fixture_groups_exist ids uids resps affs :
  (forall r, In r resps -> In (AdministrativeUnitResponsibility.group r) [7; 8]) ->
  responsibility_groups_exist (Fixture.db_with ids uids resps affs).
Proof.
  intros H r Hr. specialize (H r Hr). unfold resolves. simpl in *.
  destruct H as [<-|[<-|[]]]; eexists; reflexivity.
Defined.

(** Richmond governed by two units, both entrusted to the editors:
    the editors come back twice. *)
Lemma get_responsible_groups_one_entry_per_responsibility_witness :
  exists groups,
    Postmark_get_responsible_groups Fixture.db_two_units Fixture.now Fixture.pm = Ok groups
    /\ map Group.id groups = [7; 7].
Proof.
  destruct (get_responsible_groups_one_entry_per_responsibility
              Fixture.db_two_units Fixture.now Fixture.pm Fixture.identity_B)
    as (groups & Hrun & Hmap & _).
  - reflexivity.
  - apply fixture_units_exist. intros a [<-|[<-|[]]]; simpl; auto.
  - apply fixture_groups_exist. intros r [<-|[<-|[]]]; simpl; auto.
  - exists groups. split; [exact Hrun | exact Hmap].
Defined.

(** C3, as stated, fails: with two governing units whose
    responsibilities name the same group, the group is returned
    twice. *)
Lemma get_responsible_groups_not_deduplicated :
  Postmark_get_responsible_groups Fixture.db_two_units Fixture.now Fixture.pm
  = Ok [Fixture.editors; Fixture.editors]
  /\ ~ NoDup [Fixture.editors; Fixture.editors].
Proof.
  split; [reflexivity|].
  intros H. inversion H as [|x l Hnotin _]. apply Hnotin. now left.
Qed.

(* ================================================================== *)
(** * Which affiliations count as current *)

(** The test of [get_responsible_groups] reads the end date only: an
    affiliation is selected when its end date is null or, read as
    midnight, not before [now].  The start date is not consulted. *)
Lemma selected_affiliation_spec now a :
  selected_affiliation now a = true <->
  match JurisdictionalAffiliation.effective_to_date a with
  | None => True
  | Some t => dt_day now < t \/ (dt_day now = t /\ dt_micros now <= 0)
  end.
Proof.
  unfold selected_affiliation, gte_now, datetime_leb, isnull.
  destruct (JurisdictionalAffiliation.effective_to_date a) as [t|]; simpl; [|tauto].
  rewrite orb_true_iff, andb_true_iff, Z.ltb_lt, Z.eqb_eq, Z.leb_le. reflexivity.
Qed.

Lemma selected_affiliation_ignores_start now a from' :
  selected_affiliation now
    (JurisdictionalAffiliation.mk
       (JurisdictionalAffiliation.jurisdictional_affiliation_id a)
       (JurisdictionalAffiliation.postal_facility_identity a)
       (JurisdictionalAffiliation.administrative_unit a)
       from'
       (JurisdictionalAffiliation.effective_to_date a)
       (JurisdictionalAffiliation.affiliation_source a))
  = selected_affiliation now a.
Proof. reflexivity. Qed.

(** An affiliation whose interval has closed contributes no unit. *)
Lemma closed_affiliation_not_selected now a t :
  JurisdictionalAffiliation.effective_to_date a = Some t ->
  t < dt_day now ->
  selected_affiliation now a = false.
Proof.
  intros Hto Hlt. destruct (selected_affiliation now a) eqn:E; [|reflexivity].
  apply selected_affiliation_spec in E. rewrite Hto in E. lia.
Qed.

(** ** C4 *)

(** C4. Current-jurisdiction selection, evaluated at noon of
    2025-11-04 on a store where the only affiliation of the postmark's
    facility identity starts on 2999-01-01 (end date null).  The claim
    wants such an affiliation to contribute no groups, and the
    current-affiliation test of [common/filters.py] rejects it, but
    [get_responsible_groups] returns the group responsible for its
    unit. *)
Theorem future_affiliation_contributes_groups :
  PostalFacilityIdentity_jurisdictions Fixture.db_future Fixture.identity_B
  = [Fixture.aff_future]
  /\ dt_day Fixture.now < JurisdictionalAffiliation.effective_from_date Fixture.aff_future
  /\ filters_current_affiliation (dt_day Fixture.now) Fixture.aff_future = false
  /\ Postmark_get_responsible_groups Fixture.db_future Fixture.now Fixture.pm
     = Ok [Fixture.editors].
Proof. repeat split; reflexivity. Qed.

(* ================================================================== *)
(** * The permission check *)

Lemma in_methods_In m l : in_methods m l = true <-> In m l.
Proof.
  unfold in_methods. rewrite existsb_exists. split.
  - intros (x & Hx & Heq). apply String.eqb_eq in Heq. now subst.
  - intros H. exists m. split; [assumption | apply String.eqb_refl].
Qed.

Lemma group_in_spec g l :
  group_in g l = true <-> exists g', In g' l /\ Group.id g = Group.id g'.
Proof.
  unfold group_in, Group.eqb. rewrite existsb_exists.
  split; intros (g' & Hin & Heq); exists g'; (split; [assumption|]);
    now apply Z.eqb_eq.
Qed.

(** ** C5 *)

(** C5. Authorization of requests on a postmark.  A request with a
    safe method (GET, HEAD, OPTIONS) is permitted on any object.  A
    request with any other method on a postmark whose responsible
    groups are [groups] is permitted exactly when one of the
    principal's groups is one of [groups]; with no responsible group
    the answer is a plain refusal, for every principal, and not an
    error. *)
Theorem has_object_permission_iff_shared_group db now request p groups :
  Postmark_get_responsible_groups db now p = Ok groups ->
  (forall obj, In (method request) SAFE_METHODS ->
               IsResponsibleForRegion_has_object_permission db now request obj = Ok true)
  /\ (~ In (method request) SAFE_METHODS ->
      exists permitted,
        IsResponsibleForRegion_has_object_permission db now request (PostmarkInstance p)
        = Ok permitted
        /\ (permitted = true <->
            exists g g', In g (principal_groups (user request))
                         /\ In g' groups /\ Group.id g = Group.id g')
        /\ (groups = [] -> permitted = false)).
Proof.
  intros Hgroups. unfold IsResponsibleForRegion_has_object_permission. split.
  - intros obj Hsafe. apply in_methods_In in Hsafe. now rewrite Hsafe.
  - intros Hunsafe.
    destruct (in_methods (method request) SAFE_METHODS) eqn:E;
      [now apply in_methods_In in E|].
    rewrite Hgroups. simpl. eexists. split; [reflexivity|]. split.
    + rewrite existsb_exists. split.
      * intros (g & Hg & Hin). apply group_in_spec in Hin as (g' & Hg' & Heq).
        now exists g, g'.
      * intros (g & g' & Hg & Hg' & Heq). exists g. split; [assumption|].
        apply group_in_spec. now exists g'.
    + intros ->. induction (principal_groups (user request)) as [|g l IH];
        [reflexivity | exact IH].
Qed.

(** A PUT on the Richmond postmark: granted to an editor, refused to
    an outsider; a GET is granted to the outsider. *)
Lemma has_object_permission_iff_shared_group_witness :
  IsResponsibleForRegion_has_object_permission Fixture.db Fixture.now
    (mkRequest "PUT" Fixture.editor) (PostmarkInstance Fixture.pm) = Ok true
  /\ IsResponsibleForRegion_has_object_permission Fixture.db Fixture.now
       (mkRequest "GET" Fixture.outsider) (PostmarkInstance Fixture.pm) = Ok true
  /\ IsResponsibleForRegion_has_object_permission Fixture.db_unassigned Fixture.now
       (mkRequest "DELETE" Fixture.root) (PostmarkInstance Fixture.pm) = Ok false.
Proof.
  assert (Hput : ~ In "PUT" SAFE_METHODS)
    by (intros [H|[H|[H|[]]]]; discriminate H).
  assert (Hdelete : ~ In "DELETE" SAFE_METHODS)
    by (intros [H|[H|[H|[]]]]; discriminate H).
  split; [|split].
  - destruct (has_object_permission_iff_shared_group Fixture.db Fixture.now
                (mkRequest "PUT" Fixture.editor) Fixture.pm [Fixture.editors] eq_refl)
      as [_ Hmut].
    destruct (Hmut Hput) as (permitted & Hrun & Hiff & _).
    rewrite Hrun. f_equal. apply Hiff.
    exists Fixture.editors, Fixture.editors. simpl. auto.
  - destruct (has_object_permission_iff_shared_group Fixture.db Fixture.now
                (mkRequest "GET" Fixture.outsider) Fixture.pm [Fixture.editors] eq_refl)
      as [Hread _].
    apply Hread. simpl. auto.
  - destruct (has_object_permission_iff_shared_group Fixture.db_unassigned Fixture.now
                (mkRequest "DELETE" Fixture.root) Fixture.pm [] eq_refl)
      as [_ Hmut].
    destruct (Hmut Hdelete) as (permitted & Hrun & _ & Hclosed).
    rewrite Hrun. f_equal. now apply Hclosed.
Defined.

(* ================================================================== *)
(** * Two modes of unit-name resolution *)

Section RenamedUnit.
Variables (db : Database) (u : AdministrativeUnit.t).
Variables i1 i2 : AdministrativeUnitIdentity.t.

Hypothesis identities_of_u : Permutation (AdministrativeUnit_identities db u) [i1; i2].
Hypothesis i1_closed_by_i2 :
  AdministrativeUnitIdentity.effective_to_date i1
  = Some (AdministrativeUnitIdentity.effective_from_date i2).
Hypothesis i2_open : AdministrativeUnitIdentity.effective_to_date i2 = None.
Hypothesis renamed_later :
  AdministrativeUnitIdentity.effective_from_date i1
  < AdministrativeUnitIdentity.effective_from_date i2.

Lemma identities_of_u_cases p x :
  In x (filter p (AdministrativeUnit_identities db u)) ->
  (x = i1 \/ x = i2) /\ p x = true.
Proof.
  intros H. apply filter_In in H as [Hin Hp]. split; [|assumption].
  apply (Permutation_in _ identities_of_u) in Hin.
  destruct Hin as [<-|[<-|[]]]; auto.
Qed.

Lemma identities_of_u_In p x :
  x = i1 \/ x = i2 -> p x = true ->
  In x (filter p (AdministrativeUnit_identities db u)).
Proof.
  intros Hx Hp. apply filter_In. split; [|assumption].
  apply (Permutation_in _ (Permutation_sym identities_of_u)).
  destruct Hx as [->| ->]; simpl; auto.
Qed.

Lemma renamed_unit_at_start :
  AdministrativeUnit_get_identity_at_date db u
    (AdministrativeUnitIdentity.effective_from_date i1) = Some i1.
Proof.
  apply first_unique.
  - apply identities_of_u_In; [now left|]. apply at_date_filter_spec.
    unfold in_interval. rewrite i1_closed_by_i2. lia.
  - intros y Hy. apply identities_of_u_cases in Hy as [[->| ->] Hp]; [reflexivity|].
    apply at_date_filter_spec in Hp. destruct Hp as [Hle _]. lia.
Qed.

Lemma renamed_unit_after today :
  AdministrativeUnitIdentity.effective_from_date i2 < today ->
  AdministrativeUnit_get_identity_at_date db u today = Some i2.
Proof.
  intros Hlt. apply first_unique.
  - apply identities_of_u_In; [now right|]. apply at_date_filter_spec.
    unfold in_interval. rewrite i2_open. split; [lia | exact I].
  - intros y Hy. apply identities_of_u_cases in Hy as [[->| ->] Hp]; [|reflexivity].
    apply at_date_filter_spec in Hp. destruct Hp as [_ Hto].
    rewrite i1_closed_by_i2 in Hto. lia.
Qed.

Lemma renamed_unit_current :
  AdministrativeUnit_get_current_identity db u = Some i2.
Proof.
  apply first_unique.
  - apply identities_of_u_In; [now right|]. now rewrite i2_open.
  - intros y Hy. apply identities_of_u_cases in Hy as [[->| ->] Hp]; [|reflexivity].
    rewrite i1_closed_by_i2 in Hp. discriminate Hp.
Qed.
End RenamedUnit.

(** ** C6 *)

(** C6. Two-mode jurisdiction-name resolution.  Let a unit have the
    identities [i1] (named N1, from D1 until D2) and [i2] (named N2,
    from D2, open), D1 < D2, and let an affiliation to that unit begin
    at D1.  The historical mode,
    [JurisdictionalAffiliation.get_administrative_unit_identity],
    yields [i1] and so the name N1; the current mode, the unit's
    current identity (also its identity at any [today] after D2),
    yields [i2] and so the name N2.  They are two operations. *)
Theorem two_mode_jurisdiction_name db u aff i1 i2 today :
  related AdministrativeUnit.administrative_unit_id (AdministrativeUnits db)
          (JurisdictionalAffiliation.administrative_unit aff) = Ok u ->
  Permutation (AdministrativeUnit_identities db u) [i1; i2] ->
  AdministrativeUnitIdentity.effective_to_date i1
  = Some (AdministrativeUnitIdentity.effective_from_date i2) ->
  AdministrativeUnitIdentity.effective_to_date i2 = None ->
  AdministrativeUnitIdentity.effective_from_date i1
  < AdministrativeUnitIdentity.effective_from_date i2 ->
  JurisdictionalAffiliation.effective_from_date aff
  = AdministrativeUnitIdentity.effective_from_date i1 ->
  AdministrativeUnitIdentity.effective_from_date i2 < today ->
  JurisdictionalAffiliation_get_administrative_unit_identity db aff = Ok (Some i1)
  /\ JurisdictionalAffiliationSerializer_get_administrative_unit_name db aff
     = Ok (Some (AdministrativeUnitIdentity.unit_name i1))
  /\ AdministrativeUnit_get_current_identity db u = Some i2
  /\ AdministrativeUnit_get_identity_at_date db u today = Some i2
  /\ (forall resp,
         AdministrativeUnitResponsibility.administrative_unit resp
         = JurisdictionalAffiliation.administrative_unit aff ->
         AdministrativeUnitResponsibilitySerializer_get_administrative_unit_name db resp
         = Ok (AdministrativeUnitIdentity.unit_name i2)).
Proof.
  intros Hu Hids Hto1 Hto2 Hlt Haff Htoday.
  assert (Hhist : JurisdictionalAffiliation_get_administrative_unit_identity db aff
                  = Ok (Some i1)).
  { unfold JurisdictionalAffiliation_get_administrative_unit_identity.
    rewrite Hu, Haff. simpl. f_equal. now apply (renamed_unit_at_start db u i1 i2). }
  assert (Hcur : AdministrativeUnit_get_current_identity db u = Some i2)
    by now apply (renamed_unit_current db u i1 i2).
  split; [exact Hhist|]. split.
  - unfold JurisdictionalAffiliationSerializer_get_administrative_unit_name.
    now rewrite Hhist.
  - split; [exact Hcur|]. split.
    + now apply (renamed_unit_after db u i1 i2).
    + intros resp Hresp.
      unfold AdministrativeUnitResponsibilitySerializer_get_administrative_unit_name.
      rewrite Hresp, Hu. simpl. now rewrite Hcur.
Qed.

(** Dakota Territory, renamed South Dakota on 1889-11-02, with an
    affiliation from 1861-03-02, seen from 2025-11-04. *)
Lemma two_mode_jurisdiction_name_witness :
  JurisdictionalAffiliationSerializer_get_administrative_unit_name Fixture.db Fixture.aff_dak
  = Ok (Some "Dakota Territory")
  /\ AdministrativeUnitResponsibilitySerializer_get_administrative_unit_name Fixture.db
       (AdministrativeUnitResponsibility.mk 3 20 8 true "")
     = Ok "South Dakota".
Proof.
  destruct (two_mode_jurisdiction_name Fixture.db Fixture.unit_dak Fixture.aff_dak
              Fixture.dak_1 Fixture.dak_2 (dt_day Fixture.now))
    as (_ & Hhist & _ & _ & Hcur).
  - reflexivity.
  - apply Permutation_refl.
  - reflexivity.
  - reflexivity.
  - reflexivity.
  - reflexivity.
  - reflexivity.
  - split; [exact Hhist | now apply Hcur].
Defined.

(* ================================================================== *)
(** * Independence of the two temporal tracks *)

Lemma find_after_update {A} (pk : A -> Z) (upd : A -> A) (k : Z) (l : list A) :
  (forall r, pk (upd r) = pk r) ->
  find (fun r => pk r =? k) (map upd l) = option_map upd (find (fun r => pk r =? k) l).
Proof.
  intros Hpk. induction l as [|x l IH]; simpl; [reflexivity|].
  rewrite Hpk. destruct (pk x =? k); [reflexivity | exact IH].
Qed.

Lemma save_keeps_primary_keys new r :
  PostalFacilityIdentity.postal_facility_identity_id
    (if PostalFacilityIdentity.postal_facility_identity_id r
        =? PostalFacilityIdentity.postal_facility_identity_id new
     then new else r)
  = PostalFacilityIdentity.postal_facility_identity_id r.
Proof.
  destruct (Z.eqb_spec (PostalFacilityIdentity.postal_facility_identity_id r)
                       (PostalFacilityIdentity.postal_facility_identity_id new));
    congruence.
Qed.

Lemma jurisdictions_by_primary_key db db' i i' :
  JurisdictionalAffiliations db' = JurisdictionalAffiliations db ->
  PostalFacilityIdentity.postal_facility_identity_id i'
  = PostalFacilityIdentity.postal_facility_identity_id i ->
  PostalFacilityIdentity_jurisdictions db' i' = PostalFacilityIdentity_jurisdictions db i.
Proof. unfold PostalFacilityIdentity_jurisdictions. now intros -> ->. Qed.

(** Saving any facility identity row leaves the responsible groups of
    every postmark as they were. *)
Lemma get_responsible_groups_after_identity_save new db now p :
  Postmark_get_responsible_groups (PostalFacilityIdentity_save new db) now p
  = Postmark_get_responsible_groups db now p.
Proof.
  unfold Postmark_get_responsible_groups, related.
  cbn [PostalFacilityIdentities PostalFacilityIdentity_save].
  rewrite (find_after_update PostalFacilityIdentity.postal_facility_identity_id)
    by apply save_keeps_primary_keys.
  destruct (find _ (PostalFacilityIdentities db)) as [r|]; simpl; [|reflexivity].
  erewrite (jurisdictions_by_primary_key db (PostalFacilityIdentity_save new db) r);
    [reflexivity | reflexivity | apply save_keeps_primary_keys].
Qed.

(** ** C7 *)

(** C7. Jurisdiction/identity independence.  Renaming a facility
    identity leaves jurisdiction resolution as it was: the affiliations
    of that identity, the unit identity an affiliation yields, and the
    responsible groups of every postmark.  Rewriting the affiliation
    table in any way (rows added, changed, removed) leaves the identity
    of every facility, at every date and currently, as it was. *)
Theorem identity_and_jurisdiction_tracks_independent :
  (forall db name i,
      let db' := PostalFacilityIdentity_save (set_facility_name name i) db in
      PostalFacilityIdentity_jurisdictions db' (set_facility_name name i)
      = PostalFacilityIdentity_jurisdictions db i
      /\ (forall aff,
             JurisdictionalAffiliation_get_administrative_unit_identity db' aff
             = JurisdictionalAffiliation_get_administrative_unit_identity db aff)
      /\ (forall now p,
             Postmark_get_responsible_groups db' now p
             = Postmark_get_responsible_groups db now p))
  /\
  (forall db affiliations f,
      let db' := with_JurisdictionalAffiliations affiliations db in
      (forall d, PostalFacility_get_identity_at_date db' f d
                 = PostalFacility_get_identity_at_date db f d)
      /\ PostalFacility_get_current_identity db' f = PostalFacility_get_current_identity db f).
Proof.
  split.
  - intros db name i db'. split; [|split].
    + apply jurisdictions_by_primary_key; reflexivity.
    + intros aff. reflexivity.
    + intros now p. apply get_responsible_groups_after_identity_save.
  - intros db affiliations f db'. split; [intros d|]; reflexivity.
Qed.

(* ================================================================== *)
(** * Coordinates *)

Lemma truthy_spec d : truthy d = true <-> exists v, d = Some v /\ v <> 0.
Proof.
  unfold truthy. destruct d as [v|].
  - rewrite negb_true_iff, Z.eqb_neq. split.
    + intros H. now exists v.
    + intros (v' & [= <-] & H). exact H.
  - split; [discriminate | intros (v & H & _); discriminate H].
Qed.

Lemma not_truthy_spec d : truthy d = false <-> d = None \/ d = Some 0.
Proof.
  unfold truthy. destruct d as [v|].
  - rewrite negb_false_iff, Z.eqb_eq. split.
    + intros ->. now right.
    + intros [H|[= ->]]; [discriminate H | reflexivity].
  - split; [now left | reflexivity].
Qed.

(** ** C10 *)

(** C10. Coordinate override.  [get_coordinates] of a facility
    identity returns the identity's own pair when both its latitude
    and its longitude are present and non-zero.  When either is null
    or exactly zero it returns the coordinates of the parent facility:
    a zero coordinate counts as absent.  The serializer applies the
    same test to the pair it gets, and reports only pairs whose two
    components are present and non-zero. *)
Theorem get_coordinates_zero_counts_as_absent db i :
  (forall la lo,
      PostalFacilityIdentity.latitude i = Some la -> la <> 0 ->
      PostalFacilityIdentity.longitude i = Some lo -> lo <> 0 ->
      PostalFacilityIdentity_get_coordinates db i = Ok (Some la, Some lo))
  /\
  (forall f,
      related PostalFacility.postal_facility_id (PostalFacilities db)
              (PostalFacilityIdentity.postal_facility i) = Ok f ->
      PostalFacilityIdentity.latitude i = None \/ PostalFacilityIdentity.latitude i = Some 0
      \/ PostalFacilityIdentity.longitude i = None \/ PostalFacilityIdentity.longitude i = Some 0 ->
      PostalFacilityIdentity_get_coordinates db i
      = Ok (PostalFacility.latitude f, PostalFacility.longitude f))
  /\
  (forall c,
      PostalFacilityIdentitySerializer_get_coordinates db i = Ok (Some c) ->
      exists la lo, c = (Some la, Some lo) /\ la <> 0 /\ lo <> 0).
Proof.
  unfold PostalFacilityIdentitySerializer_get_coordinates.
  unfold PostalFacilityIdentity_get_coordinates. split; [|split].
  - intros la lo Hla Hla0 Hlo Hlo0.
    replace (truthy (PostalFacilityIdentity.latitude i)) with true
      by (symmetry; apply truthy_spec; now exists la).
    replace (truthy (PostalFacilityIdentity.longitude i)) with true
      by (symmetry; apply truthy_spec; now exists lo).
    simpl. now rewrite Hla, Hlo.
  - intros f Hf Habsent.
    assert (Hfalse : truthy (PostalFacilityIdentity.latitude i)
                     && truthy (PostalFacilityIdentity.longitude i) = false).
    { apply andb_false_iff.
      destruct Habsent as [H|[H|[H|H]]];
        [left | left | right | right]; apply not_truthy_spec; auto. }
    rewrite Hfalse, Hf. reflexivity.
  - intros c Hc.
    match type of Hc with
    | bind ?m _ = _ => destruct m as [[la lo]|e]; [|discriminate Hc]
    end.
    simpl in Hc. destruct (truthy la && truthy lo) eqn:E; [|discriminate Hc].
    injection Hc as <-. apply andb_true_iff in E as [Hla Hlo].
    apply truthy_spec in Hla as (x & -> & Hx). apply truthy_spec in Hlo as (y & -> & Hy).
    now exists x, y.
Qed.

(** A station on the equator (latitude 0) gets the coordinates of its
    facility, not its own. *)
Lemma get_coordinates_zero_counts_as_absent_witness :
  PostalFacilityIdentity.latitude Fixture.identity_equator = Some 0
  /\ PostalFacilityIdentity_get_coordinates Fixture.db Fixture.identity_equator
     = Ok (PostalFacility.latitude Fixture.F, PostalFacility.longitude Fixture.F).
Proof.
  split; [reflexivity|].
  apply (proj1 (proj2 (get_coordinates_zero_counts_as_absent
                         Fixture.db Fixture.identity_equator))).
  - reflexivity.
  - right. left. reflexivity.
Defined.

(* ================================================================== *)
(** * The auth restore command *)

Lemma import_plan_ordered opts i j a b :
  nth_error (import_plan opts) i = Some a ->
  nth_error (import_plan opts) j = Some b ->
  (a = RestoreAuth.GroupResource -> b = RestoreAuth.UserResource -> (i < j)%nat)
  /\ (a = RestoreAuth.UserResource -> b = RestoreAuth.EmailAddressResource -> (i < j)%nat).
Proof.
  unfold import_plan.
  destruct (RestoreAuth.truthy (RestoreAuth.py_or (RestoreAuth.groups_file opts) _));
    destruct (RestoreAuth.truthy (RestoreAuth.py_or (RestoreAuth.emails_file opts) _));
    cbn [app]; intros Hi Hj;
    destruct i as [|[|[|i]]]; destruct j as [|[|[|j]]]; cbn in Hi, Hj;
    try discriminate Hi; try discriminate Hj;
    try (destruct i; discriminate Hi); try (destruct j; discriminate Hj);
    injection Hi as <-; injection Hj as <-; split; intros; (discriminate || lia).
Qed.

Lemma nth_error_prefix {A} (l rest p : list A) i x :
  (l ++ rest)%list = p -> nth_error l i = Some x -> nth_error p i = Some x.
Proof.
  intros <- H. rewrite nth_error_app1; [assumption|].
  apply nth_error_Some. congruence.
Qed.

Section RestoreFacts.
Import RestoreAuth.
Variables Store Dataset : Type.
Variable read_file : string -> option string.
Variable load : string -> string -> option Dataset.
Variable import_data :
  resource -> Dataset -> bool -> connection Store -> connection Store * ImportResult.

Local Abbreviation handle := (RestoreAuth.handle read_file load import_data).

Ltac run_body :=
  unfold RestoreAuth.handle, atomic, handle_body, seq, when, open_read, Dataset_load,
    run_import, write, ret, return_, raise.

(** One case split of a run: on a file, a parse, an import result, a
    flag or the mark of the transaction. *)
Ltac step :=
  match goal with
  | |- context [match read_file ?p with _ => _ end] => destruct (read_file p) eqn:?
  | |- context [match load ?r ?f with _ => _ end] => destruct (load r f) eqn:?
  | |- context [import_data ?r ?d ?b ?c] =>
      let t := fresh "t" in let m := fresh "m" in
      let h := fresh "h" in let e := fresh "e" in
      destruct (import_data r d b c) as [[t m] [h e]] eqn:?; destruct h
  | |- context [if ?b then _ else _] => destruct b eqn:?
  end; cbn -[follows_plan].

(** Whatever the files hold and the imports report, a run follows
    the plan. *)
Lemma calls_follow_plan opts s : follows_plan opts s (handle opts s).
Proof.
  run_body. cbn -[follows_plan].
  repeat step.
  all: unfold follows_plan, import_plan; cbn.
  all: repeat match goal with
              | H : ?b = _ |- context [if ?b then _ else _] => rewrite H
              end; cbn.
  all: (split; [eexists; cbn; reflexivity | split; [cbn; auto|]]).
  all: (split; [intros s' Hs'; first [discriminate Hs' | injection Hs' as <-];
                repeat split; reflexivity |]).
  all: (split; [intros Hd; first [discriminate Hd | split; reflexivity] |]).
  all: intros Hne Hdry;
       first [congruence | reflexivity | exfalso; eapply Hne; reflexivity].
Qed.

Lemma user_import_follows_group_import opts s c :
  let w := snd (handle opts s) in
  RestoreAuth.truthy (py_or (groups_file opts) (positional (paths opts) 1)) = true ->
  In c (calls w) -> res c = UserResource ->
  exists g rest, calls w = g :: c :: rest /\ res g = GroupResource /\ before c = after g.
Proof.
  cbv zeta. intros Hg Hc Hres.
  destruct (calls_follow_plan opts s) as ((rest & Hplan) & Hchain & _).
  unfold import_plan in Hplan. rewrite Hg in Hplan. cbn [app] in Hplan.
  destruct (calls (snd (handle opts s))) as [|c0 [|c1 cs]].
  - destruct Hc.
  - destruct Hc as [<-|[]]. cbn in Hplan. congruence.
  - cbn in Hplan. injection Hplan as H0 H1 Htail. destruct Hchain as [_ [Hb _]].
    assert (c = c1) as ->.
    { destruct Hc as [<-|[<-|Hc]]; [congruence | reflexivity | exfalso].
      destruct cs as [|c2 cs']; [destruct Hc|]. cbn in Htail.
      destruct (RestoreAuth.truthy _) in Htail; [|discriminate Htail].
      injection Htail as H2 Hrest. destruct cs'; [|discriminate Hrest].
      destruct Hc as [<-|[]]. congruence. }
    now exists c0, cs.
Qed.

(** In a non-dry run whose groups file and users file are read and
    parsed, the users import is made right after the groups import,
    whatever the groups import reported. *)
Lemma users_imported_after_groups opts s gp up graw uraw gd ud :
  dry_run opts = false ->
  py_or (groups_file opts) (positional (paths opts) 1) = Some gp -> gp <> "" ->
  py_or (users_file opts) (positional (paths opts) 0) = Some up -> up <> "" ->
  read_file gp = Some graw -> load graw (format opts) = Some gd ->
  read_file up = Some uraw -> load uraw (format opts) = Some ud ->
  let c0 := mkConnection s false in
  let c1 := fst (import_data GroupResource gd false c0) in
  let c2 := fst (import_data UserResource ud false c1) in
  exists rest,
    calls (snd (handle opts s))
    = mkCall GroupResource c0 c1 :: mkCall UserResource c1 c2 :: rest.
Proof.
  intros Hdry Hg Hgp Hu Hup Hrg Hlg Hru Hlu. cbv zeta.
  apply String.eqb_neq in Hup, Hgp.
  run_body. rewrite Hdry, Hu, Hg. cbn. rewrite Hup, Hgp. cbn.
  rewrite Hrg, Hlg. cbv beta iota delta [conn stdout calls].
  destruct (import_data GroupResource gd false (mkConnection s false)) as [c1 [[] e1]];
    cbn; rewrite Hru, Hlu; cbv beta iota delta [conn stdout calls];
    destruct (import_data UserResource ud false c1) as [c2 [[] e2]]; cbn.
  all: repeat step.
  all: eexists; reflexivity.
Qed.

(** A non-dry restore whose three paths resolve, read and parse does
    not raise: it makes the three imports and ends with the connection
    as they left it. *)
Lemma restore_imports_three_files opts s gp up ep graw uraw eraw gd ud ed :
  dry_run opts = false ->
  py_or (users_file opts) (positional (paths opts) 0) = Some up ->
  py_or (groups_file opts) (positional (paths opts) 1) = Some gp ->
  py_or (emails_file opts) (positional (paths opts) 2) = Some ep ->
  up <> "" -> gp <> "" -> ep <> "" ->
  read_file gp = Some graw -> load graw (format opts) = Some gd ->
  read_file up = Some uraw -> load uraw (format opts) = Some ud ->
  read_file ep = Some eraw -> load eraw (format opts) = Some ed ->
  let c1 := fst (import_data GroupResource gd false (mkConnection s false)) in
  let c2 := fst (import_data UserResource ud false c1) in
  let c3 := fst (import_data EmailAddressResource ed false c2) in
  map res (calls (snd (handle opts s)))
  = [GroupResource; UserResource; EmailAddressResource]
  /\ last (map after (calls (snd (handle opts s)))) (mkConnection s false) = c3
  /\ fst (handle opts s)
     = if needs_rollback c3 then Discarded else Committed (tables c3).
Proof.
  intros Hdry Hu Hg He Hup Hgp Hep Hrg Hlg Hru Hlu Hre Hle. cbv zeta.
  apply String.eqb_neq in Hup, Hgp, Hep.
  run_body. rewrite Hdry, Hu, Hg, He. cbn.
  rewrite Hup, Hgp, Hep.
  repeat (cbn; cbv beta iota delta [conn stdout calls];
          rewrite ?Hrg, ?Hlg, ?Hru, ?Hlu, ?Hre, ?Hle;
          try match goal with
              | |- context [import_data ?r ?d ?b ?c] =>
                  destruct (import_data r d b c) as [[? ?] [[] ?]]
              end).
  all: match goal with
       | |- context [if ?b then _ else _] => destruct b
       end; repeat split; reflexivity.
Qed.

(** ** C9 *)

(** C9 (as the code has it).  Seeding order.  In every run of the
    command the imports made are an initial segment of: groups (when a
    groups file is given), users, email addresses (when an emails file
    is given).  So a groups import comes strictly before a users import
    and an emails import strictly after it; and when a groups file is
    given, the users import starts from the connection exactly as the
    groups import left it.  The command checks nothing more: in a
    non-dry run whose groups file and users file are read and parsed,
    the users file is imported right after the groups file whatever
    the groups import reported, row errors included. *)
Theorem imports_run_in_seeding_order opts s :
  let w := snd (handle opts s) in
  let c0 := mkConnection s false in
  (exists rest, (map res (calls w) ++ rest)%list = import_plan opts)
  /\ chained c0 (calls w)
  /\ (forall i j c c',
         nth_error (calls w) i = Some c -> nth_error (calls w) j = Some c' ->
         (res c = GroupResource -> res c' = UserResource -> (i < j)%nat)
         /\ (res c = UserResource -> res c' = EmailAddressResource -> (i < j)%nat))
  /\ (forall c,
         RestoreAuth.truthy (py_or (groups_file opts) (positional (paths opts) 1)) = true ->
         In c (calls w) -> res c = UserResource ->
         exists g rest, calls w = g :: c :: rest
                        /\ res g = GroupResource /\ before c = after g)
  /\ (forall gp up graw uraw gd ud,
         dry_run opts = false ->
         py_or (groups_file opts) (positional (paths opts) 1) = Some gp -> gp <> "" ->
         py_or (users_file opts) (positional (paths opts) 0) = Some up -> up <> "" ->
         read_file gp = Some graw -> load graw (format opts) = Some gd ->
         read_file up = Some uraw -> load uraw (format opts) = Some ud ->
         let c1 := fst (import_data GroupResource gd false c0) in
         let c2 := fst (import_data UserResource ud false c1) in
         exists rest,
           calls w = mkCall GroupResource c0 c1 :: mkCall UserResource c1 c2 :: rest).
Proof.
  cbv zeta. destruct (calls_follow_plan opts s) as ((rest & Hplan) & Hchain & _).
  split; [now exists rest|]. split; [assumption|]. split; [|split].
  - intros i j c c' Hi Hj.
    apply (import_plan_ordered opts i j).
    + apply (nth_error_prefix _ _ _ _ _ Hplan). rewrite nth_error_map, Hi. reflexivity.
    + apply (nth_error_prefix _ _ _ _ _ Hplan). rewrite nth_error_map, Hj. reflexivity.
  - intros c Hg Hc Hres. now apply user_import_follows_group_import.
  - intros gp up graw uraw gd ud Hdry Hg Hgp Hu Hup Hrg Hlg Hru Hlu.
    exact (users_imported_after_groups opts s gp up graw uraw gd ud
             Hdry Hg Hgp Hu Hup Hrg Hlg Hru Hlu).
Qed.

(** ** C8 *)

(** C8 (as the code has it).  The body of the command runs in one
    transaction.  A run that raises (no users path, a file that cannot
    be read, a dataset that cannot be parsed) commits nothing: the
    tables are left as they were.  A run that ends normally commits
    nothing either when a database error has left the transaction
    marked for rollback; otherwise it commits the tables its last
    import left.  A non-dry run that does not raise has made every
    planned import; and a non-dry run whose three files are read and
    parsed does not raise, whatever row errors the imports report: it
    commits what the three imports leave (groups, then users, then
    emails) unless they leave the transaction marked. *)
Theorem handle_commits_unless_raised_or_marked opts s :
  let w := snd (handle opts s) in
  let c := last (map after (calls w)) (mkConnection s false) in
  (forall e, fst (handle opts s) = RolledBack e ->
             final_store read_file load import_data opts s = s)
  /\ (fst (handle opts s) = Discarded ->
      needs_rollback c = true
      /\ final_store read_file load import_data opts s = s)
  /\ (forall s', fst (handle opts s) = Committed s' ->
                 s' = tables c /\ needs_rollback c = false
                 /\ final_store read_file load import_data opts s = s')
  /\ ((forall e, fst (handle opts s) <> RolledBack e) ->
      dry_run opts = false -> map res (calls w) = import_plan opts)
  /\ (forall gp up ep graw uraw eraw gd ud ed,
         dry_run opts = false ->
         paths opts = [up; gp; ep] ->
         users_file opts = None -> groups_file opts = None -> emails_file opts = None ->
         up <> "" -> gp <> "" -> ep <> "" ->
         read_file gp = Some graw -> load graw (format opts) = Some gd ->
         read_file up = Some uraw -> load uraw (format opts) = Some ud ->
         read_file ep = Some eraw -> load eraw (format opts) = Some ed ->
         let c1 := fst (import_data GroupResource gd false (mkConnection s false)) in
         let c2 := fst (import_data UserResource ud false c1) in
         let c3 := fst (import_data EmailAddressResource ed false c2) in
         fst (handle opts s)
         = if needs_rollback c3 then Discarded else Committed (tables c3)).
Proof.
  cbv zeta.
  destruct (calls_follow_plan opts s) as (_ & _ & Hcommit & Hdiscard & Hall).
  split; [|split; [|split; [|split]]].
  - intros e. unfold final_store, RestoreAuth.handle, atomic.
    match goal with
    | |- context [handle_body ?o ?w0] => destruct (handle_body o w0) as [[a| |e'] w]
    end; cbn;
      first [ reflexivity
            | destruct (needs_rollback (conn w)); cbn; discriminate ].
  - exact Hdiscard.
  - exact Hcommit.
  - exact Hall.
  - intros gp up ep graw uraw eraw gd ud ed Hdry Hpaths Hu Hg He Hup Hgp Hep
           Hrg Hlg Hru Hlu Hre Hle.
    apply (restore_imports_three_files opts s gp up ep graw uraw eraw gd ud ed);
      try assumption.
    all: rewrite Hpaths; first [rewrite Hu | rewrite Hg | rewrite He]; reflexivity.
Qed.
End RestoreFacts.

(** The test run: three files, the second group row blank. *)
Lemma imports_run_in_seeding_order_witness :
  map RestoreAuth.res (RestoreAuth.calls (snd (RestoreFixture.run false RestoreFixture.opts [])))
  = [RestoreAuth.GroupResource; RestoreAuth.UserResource; RestoreAuth.EmailAddressResource]
  /\ chained (RestoreAuth.mkConnection [] false)
       (RestoreAuth.calls (snd (RestoreFixture.run false RestoreFixture.opts []))).
Proof.
  destruct (imports_run_in_seeding_order _ _ RestoreFixture.read_file RestoreFixture.load
              (ImportExport.import_data RestoreFixture.import_row false)
              RestoreFixture.opts [])
    as (_ & Hchain & _).
  split; [reflexivity | exact Hchain].
Defined.

(** C9, as stated, fails.  The groups file of the batch names the
    group editors and has a blank second row; the user alice of the
    users file is in the group editors.  Under per-dataset transactions
    the failed row undoes the groups import; the users import follows
    all the same, from tables without any group, and the run commits
    the user alice while the group editors is absent. *)
Lemma user_written_while_its_group_is_absent :
  let run := SeedFixture.run true SeedFixture.opts SeedFixture.empty in
  SeedFixture.load ("editors" ++ RestoreFixture.nl) "csv" = Some [["editors"]; [""]]
  /\ SeedFixture.load "alice,editors" "csv" = Some [["alice"; "editors"]]
  /\ map (fun c => (RestoreAuth.res c,
                    SeedFixture.groups (RestoreAuth.tables (RestoreAuth.before c)),
                    SeedFixture.users (RestoreAuth.tables (RestoreAuth.after c))))
         (RestoreAuth.calls (snd run))
     = [(RestoreAuth.GroupResource, [], []);
        (RestoreAuth.UserResource, [], [("alice", [])]);
        (RestoreAuth.EmailAddressResource, [], [("alice", [])])]
  /\ fst run
     = RestoreAuth.Committed
         (SeedFixture.mkStore [] [("alice", [])] [("alice", "alice@example.org")]).
Proof. cbv zeta. repeat split; vm_compute; reflexivity. Qed.

(** The test run commits; a run whose groups file does not exist
    raises and leaves the tables as they were; and a run into tables
    that already hold the group editors has the store refuse that
    row, ends normally and leaves the tables as they were. *)
Lemma handle_commits_unless_raised_or_marked_witness :
  fst (RestoreFixture.run false RestoreFixture.opts [])
  = RestoreAuth.Committed
      [(RestoreAuth.GroupResource, "editors"); (RestoreAuth.GroupResource, "writers");
       (RestoreAuth.UserResource, "alice"); (RestoreAuth.UserResource, "bob");
       (RestoreAuth.EmailAddressResource, "alice@example.org")]
  /\ RestoreAuth.final_store RestoreFixture.read_file RestoreFixture.load
       (ImportExport.import_data RestoreFixture.import_row false)
       RestoreFixture.opts_missing_groups []
     = []
  /\ fst (RestoreFixture.run false RestoreFixture.opts [(RestoreAuth.GroupResource, "editors")])
     = RestoreAuth.Discarded
  /\ RestoreAuth.final_store RestoreFixture.read_file RestoreFixture.load
       (ImportExport.import_data RestoreFixture.import_row false)
       RestoreFixture.opts [(RestoreAuth.GroupResource, "editors")]
     = [(RestoreAuth.GroupResource, "editors")].
Proof.
  destruct (handle_commits_unless_raised_or_marked _ _ RestoreFixture.read_file
              RestoreFixture.load
              (ImportExport.import_data RestoreFixture.import_row false)
              RestoreFixture.opts [])
    as (_ & _ & _ & _ & Hcommit).
  destruct (handle_commits_unless_raised_or_marked _ _ RestoreFixture.read_file
              RestoreFixture.load
              (ImportExport.import_data RestoreFixture.import_row false)
              RestoreFixture.opts_missing_groups [])
    as (Hraise & _).
  destruct (handle_commits_unless_raised_or_marked _ _ RestoreFixture.read_file
              RestoreFixture.load
              (ImportExport.import_data RestoreFixture.import_row false)
              RestoreFixture.opts [(RestoreAuth.GroupResource, "editors")])
    as (_ & Hdiscard & _).
  split; [|split; [|split]].
  - assert (Hne : forall p q : string, String.eqb p q = false -> p <> q)
      by (intros p q; apply String.eqb_neq).
    exact (Hcommit "groups.csv" "users.csv" "emails.csv"
             _ _ _ _ _ _
             eq_refl eq_refl eq_refl eq_refl eq_refl
             (Hne "users.csv" "" eq_refl) (Hne "groups.csv" "" eq_refl)
             (Hne "emails.csv" "" eq_refl)
             eq_refl eq_refl eq_refl eq_refl eq_refl eq_refl).
  - apply (Hraise (FileNotFoundError "nowhere.csv")). reflexivity.
  - vm_compute. reflexivity.
  - apply Hdiscard. vm_compute. reflexivity.
Defined.

(** C8, as stated, fails: the second row of the groups file fails to
    import (a blank name, rejected before anything is written), and
    the run still commits.  Without per-dataset transactions the other
    group rows, the users and the email address are all committed;
    with them the group rows are undone and the users and the email
    address are committed. *)
Lemma restore_commits_despite_failed_row :
  snd (ImportExport.import_rows RestoreFixture.import_row false RestoreAuth.GroupResource
         ["editors"; ""; "writers"] (RestoreAuth.mkConnection [] false)) = true
  /\ RestoreFixture.load ("editors" ++ RestoreFixture.nl ++ "" ++ RestoreFixture.nl ++ "writers") "csv"
     = Some ["editors"; ""; "writers"]
  /\ fst (RestoreFixture.run false RestoreFixture.opts [])
     = RestoreAuth.Committed
         [(RestoreAuth.GroupResource, "editors"); (RestoreAuth.GroupResource, "writers");
          (RestoreAuth.UserResource, "alice"); (RestoreAuth.UserResource, "bob");
          (RestoreAuth.EmailAddressResource, "alice@example.org")]
  /\ fst (RestoreFixture.run true RestoreFixture.opts [])
     = RestoreAuth.Committed
         [(RestoreAuth.UserResource, "alice"); (RestoreAuth.UserResource, "bob");
          (RestoreAuth.EmailAddressResource, "alice@example.org")].
Proof. repeat split; reflexivity. Qed.

(* ================================================================== *)
(** * Identity resolution without assumptions on the data *)

Section ResolutionAnyData.
Context {A : Type}.
Variables (from : A -> date) (to : A -> option date) (key : A -> Z * Z).
Variable rows : list A.

Lemma at_date_None d :
  QuerySet.first key
    (filter (fun i => lte (from i) d && (isnull (to i) || gt (to i) d)) rows) = None ->
  forall i, In i rows -> ~ in_interval (from i) (to i) d.
Proof.
  intros H i Hin Hcov. apply first_nil_iff in H.
  assert (Hi : In i (filter (fun i => lte (from i) d && (isnull (to i) || gt (to i) d)) rows))
    by (apply filter_In; split; [assumption | now apply at_date_filter_spec]).
  rewrite H in Hi. destruct Hi.
Qed.

Lemma current_Some i :
  QuerySet.first key (filter (fun i => isnull (to i)) rows) = Some i ->
  In i rows /\ to i = None.
Proof.
  intros H. apply first_In, filter_In in H as [Hin Hnull].
  split; [assumption | now destruct (to i)].
Qed.

Lemma current_None :
  QuerySet.first key (filter (fun i => isnull (to i)) rows) = None ->
  forall i, In i rows -> to i <> None.
Proof.
  intros H i Hin Hnull. apply first_nil_iff in H.
  assert (Hi : In i (filter (fun i => isnull (to i)) rows))
    by (apply filter_In; split; [assumption | now rewrite Hnull]).
  rewrite H in Hi. destruct Hi.
Qed.

Lemma current_unique i :
  In i rows -> to i = None ->
  (forall j, In j rows -> to j = None -> j = i) ->
  QuerySet.first key (filter (fun i => isnull (to i)) rows) = Some i.
Proof.
  intros Hin Hnull Huniq. apply first_unique.
  - apply filter_In. split; [assumption | now rewrite Hnull].
  - intros j Hj. apply filter_In in Hj as [Hj Hp]. apply Huniq; [assumption|].
    now destruct (to j).
Qed.
End ResolutionAnyData.

(** X1. Whatever the stored intervals (overlapping or not),
    [get_identity_at_date] of a facility or of a unit is sound and
    complete: an identity it returns belongs to the entity and its
    interval contains the date, and it returns [None] only when no
    identity of the entity contains the date. *)
Theorem get_identity_at_date_sound_and_complete :
  (forall db f d,
      match PostalFacility_get_identity_at_date db f d with
      | Some i => In i (PostalFacility_identities db f) /\ PostalFacilityIdentity_covers i d
      | None => forall i, In i (PostalFacility_identities db f) ->
                          ~ PostalFacilityIdentity_covers i d
      end)
  /\
  (forall db u d,
      match AdministrativeUnit_get_identity_at_date db u d with
      | Some i => In i (AdministrativeUnit_identities db u)
                  /\ AdministrativeUnitIdentity_covers i d
      | None => forall i, In i (AdministrativeUnit_identities db u) ->
                          ~ AdministrativeUnitIdentity_covers i d
      end).
Proof.
  split.
  - intros db f d. destruct (PostalFacility_get_identity_at_date db f d) as [i|] eqn:E.
    + exact (resolve_Some _ _ _ _ d i E).
    + exact (at_date_None _ _ _ _ d E).
  - intros db u d. destruct (AdministrativeUnit_get_identity_at_date db u d) as [i|] eqn:E.
    + exact (resolve_Some _ _ _ _ d i E).
    + exact (at_date_None _ _ _ _ d E).
Qed.

(** X2. [get_current_identity] of a facility or of a unit returns an
    identity of the entity whose end date is null, returns [None] only
    when every identity of the entity is closed, and returns the open
    identity when there is exactly one. *)
Theorem get_current_identity_sound_and_complete :
  (forall db f,
      match PostalFacility_get_current_identity db f with
      | Some i => In i (PostalFacility_identities db f)
                  /\ PostalFacilityIdentity.effective_to_date i = None
      | None => forall i, In i (PostalFacility_identities db f) ->
                          PostalFacilityIdentity.effective_to_date i <> None
      end
      /\ (forall i,
             In i (PostalFacility_identities db f) ->
             PostalFacilityIdentity.effective_to_date i = None ->
             (forall j, In j (PostalFacility_identities db f) ->
                        PostalFacilityIdentity.effective_to_date j = None -> j = i) ->
             PostalFacility_get_current_identity db f = Some i))
  /\
  (forall db u,
      match AdministrativeUnit_get_current_identity db u with
      | Some i => In i (AdministrativeUnit_identities db u)
                  /\ AdministrativeUnitIdentity.effective_to_date i = None
      | None => forall i, In i (AdministrativeUnit_identities db u) ->
                          AdministrativeUnitIdentity.effective_to_date i <> None
      end
      /\ (forall i,
             In i (AdministrativeUnit_identities db u) ->
             AdministrativeUnitIdentity.effective_to_date i = None ->
             (forall j, In j (AdministrativeUnit_identities db u) ->
                        AdministrativeUnitIdentity.effective_to_date j = None -> j = i) ->
             AdministrativeUnit_get_current_identity db u = Some i)).
Proof.
  split.
  - intros db f. split.
    + destruct (PostalFacility_get_current_identity db f) as [i|] eqn:E.
      * exact (current_Some _ _ _ i E).
      * exact (current_None _ _ _ E).
    + intros i. apply current_unique.
  - intros db u. split.
    + destruct (AdministrativeUnit_get_current_identity db u) as [i|] eqn:E.
      * exact (current_Some _ _ _ i E).
      * exact (current_None _ _ _ E).
    + intros i. apply current_unique.
Qed.

Lemma get_current_identity_sound_and_complete_witness :
  PostalFacility_get_current_identity Fixture.db Fixture.F = Some Fixture.identity_B.
Proof.
  apply (proj2 (proj1 get_current_identity_sound_and_complete Fixture.db Fixture.F)).
  - right. now left.
  - reflexivity.
  - intros j Hj Hopen. vm_compute in Hj. destruct Hj as [<-|[<-|[]]];
      [discriminate Hopen | reflexivity].
Defined.

(** X3. "Current" is not "today": the current identity is chosen by
    its null end date alone.  An entity whose only open identity starts
    after [today] has that identity as its current one, while
    resolving the entity at [today] does not yield it. *)
Theorem current_identity_ignores_start_date db f i today :
  In i (PostalFacility_identities db f) ->
  PostalFacilityIdentity.effective_to_date i = None ->
  (forall j, In j (PostalFacility_identities db f) ->
             PostalFacilityIdentity.effective_to_date j = None -> j = i) ->
  today < PostalFacilityIdentity.effective_from_date i ->
  PostalFacility_get_current_identity db f = Some i
  /\ PostalFacilityListSerializer_get_current_name db f
     = Some (PostalFacilityIdentity.facility_name i)
  /\ PostalFacility_get_identity_at_date db f today <> Some i.
Proof.
  intros Hin Hopen Huniq Hfuture.
  assert (Hcur : PostalFacility_get_current_identity db f = Some i)
    by (now apply current_unique).
  split; [exact Hcur|]. split.
  - unfold PostalFacilityListSerializer_get_current_name. now rewrite Hcur.
  - intros H. apply (resolve_Some _ _ _ _ today i) in H as [_ [Hle _]]. lia.
Qed.

Lemma current_identity_ignores_start_date_witness :
  PostalFacilityListSerializer_get_current_name Fixture2.db_future_identity Fixture.F
  = Some "Richmond Orbital"
  /\ PostalFacility_get_identity_at_date Fixture2.db_future_identity Fixture.F
       (dt_day Fixture.now) <> Some Fixture2.identity_future.
Proof.
  destruct (current_identity_ignores_start_date Fixture2.db_future_identity Fixture.F
              Fixture2.identity_future (dt_day Fixture.now))
    as (_ & Hname & Hat).
  - now left.
  - reflexivity.
  - intros j Hj _. vm_compute in Hj. destruct Hj as [<-|[]]. reflexivity.
  - reflexivity.
  - split; [exact Hname | exact Hat].
Defined.

(* ================================================================== *)
(** * Parent identity *)

(** X4. [get_parent_identity_at_this_time] and [get_parent_name].
    Without a parent both return [None].  With a parent that resolves,
    the identity returned is an identity of the parent unit whose
    interval contains this identity's own start date, and the name is
    that identity's name; both are [None] exactly when no identity of
    the parent contains that date. *)
Theorem get_parent_identity_at_this_time_spec db self :
  (AdministrativeUnitIdentity.parent_administrative_unit self = None ->
   AdministrativeUnitIdentity_get_parent_identity_at_this_time db self = Ok None
   /\ AdministrativeUnitIdentitySerializer_get_parent_name db self = Ok None)
  /\
  (forall k parent,
      AdministrativeUnitIdentity.parent_administrative_unit self = Some k ->
      related AdministrativeUnit.administrative_unit_id (AdministrativeUnits db) k = Ok parent ->
      match AdministrativeUnit_get_identity_at_date db parent
              (AdministrativeUnitIdentity.effective_from_date self) with
      | Some i =>
          AdministrativeUnitIdentity_get_parent_identity_at_this_time db self = Ok (Some i)
          /\ AdministrativeUnitIdentitySerializer_get_parent_name db self
             = Ok (Some (AdministrativeUnitIdentity.unit_name i))
          /\ AdministrativeUnitIdentity.administrative_unit i = k
          /\ AdministrativeUnitIdentity_covers i
               (AdministrativeUnitIdentity.effective_from_date self)
      | None =>
          AdministrativeUnitIdentity_get_parent_identity_at_this_time db self = Ok None
          /\ AdministrativeUnitIdentitySerializer_get_parent_name db self = Ok None
          /\ (forall i, In i (AdministrativeUnit_identities db parent) ->
                        ~ AdministrativeUnitIdentity_covers i
                            (AdministrativeUnitIdentity.effective_from_date self))
      end).
Proof.
  unfold AdministrativeUnitIdentitySerializer_get_parent_name,
    AdministrativeUnitIdentity_get_parent_identity_at_this_time.
  split.
  - intros ->. split; reflexivity.
  - intros k parent Hk Hparent. rewrite Hk, Hparent. simpl.
    destruct (AdministrativeUnit_get_identity_at_date db parent
                (AdministrativeUnitIdentity.effective_from_date self)) as [i|] eqn:E.
    + split; [reflexivity|]. split; [reflexivity|].
      apply (resolve_Some _ _ _ _ _ i) in E as [Hin Hcov].
      apply AdministrativeUnit_identities_In in Hin as [_ Hu].
      apply related_Ok in Hparent as [_ Hpk]. split; [congruence | exact Hcov].
    + split; [reflexivity|]. split; [reflexivity|].
      exact (at_date_None _ _ _ _ _ E).
Qed.

(** Yankton County, created in 1870 under the unit then called Dakota
    Territory. *)
Lemma get_parent_identity_at_this_time_spec_witness :
  AdministrativeUnitIdentitySerializer_get_parent_name Fixture.db Fixture2.county
  = Ok (Some "Dakota Territory").
Proof.
  pose proof (proj2 (get_parent_identity_at_this_time_spec Fixture.db Fixture2.county)
                20 Fixture.unit_dak eq_refl eq_refl) as H.
  change (AdministrativeUnit_get_identity_at_date Fixture.db Fixture.unit_dak
            (AdministrativeUnitIdentity.effective_from_date Fixture2.county))
    with (Some Fixture.dak_1) in H.
  exact (proj1 (proj2 H)).
Defined.

(* ================================================================== *)
(** * View actions *)

(** X5. [approve] and [reject] of a postmark image decide exactly as
    the object permission does for an unsafe method on the image's
    postmark: where that check grants, both answer 200 and save the
    image row as it is; where it refuses, both answer 403 and save
    nothing; where it raises, both raise.  The two actions differ only
    in the message. *)
Theorem approve_and_reject_follow_permission_check db now request image p m :
  related Postmark.postmark_id (Postmarks db) (PostmarkImage.postmark image) = Ok p ->
  ~ In m SAFE_METHODS ->
  match IsResponsibleForRegion_has_object_permission db now
          (mkRequest m (user request)) (PostmarkInstance p) with
  | Ok true =>
      PostmarkImageViewSet_approve db now request image
      = Ok (mkResponse (StatusBody "image approved") HTTP_200_OK, Some image)
      /\ PostmarkImageViewSet_reject db now request image
         = Ok (mkResponse (StatusBody "image rejected") HTTP_200_OK, Some image)
  | Ok false =>
      PostmarkImageViewSet_approve db now request image
      = Ok (mkResponse (ErrorBody "You are not responsible for this region")
                       HTTP_403_FORBIDDEN, None)
      /\ PostmarkImageViewSet_reject db now request image
         = PostmarkImageViewSet_approve db now request image
  | Raise e =>
      PostmarkImageViewSet_approve db now request image = Raise e
      /\ PostmarkImageViewSet_reject db now request image = Raise e
  end.
Proof.
  intros Hp Hunsafe.
  unfold IsResponsibleForRegion_has_object_permission, PostmarkImageViewSet_approve,
    PostmarkImageViewSet_reject, PostmarkImageViewSet_review.
  cbn [method user].
  destruct (in_methods m SAFE_METHODS) eqn:E; [now apply in_methods_In in E|].
  rewrite Hp. cbn [bind].
  destruct (Postmark_get_responsible_groups db now p) as [groups|e]; cbn [bind].
  - destruct (existsb (fun group => group_in group groups)
                      (principal_groups (user request))); simpl; split; reflexivity.
  - simpl. split; reflexivity.
Qed.

Lemma approve_and_reject_follow_permission_check_witness :
  PostmarkImageViewSet_approve Fixture.db Fixture.now
    (mkRequest "POST" Fixture.editor) Fixture2.image
  = Ok (mkResponse (StatusBody "image approved") HTTP_200_OK, Some Fixture2.image)
  /\ PostmarkImageViewSet_reject Fixture.db Fixture.now
       (mkRequest "POST" Fixture.outsider) Fixture2.image
     = Ok (mkResponse (ErrorBody "You are not responsible for this region")
                      HTTP_403_FORBIDDEN, None).
Proof.
  assert (Hpost : ~ In "POST" SAFE_METHODS)
    by (intros [H|[H|[H|[]]]]; discriminate H).
  split.
  - exact (proj1 (approve_and_reject_follow_permission_check Fixture.db Fixture.now
                    (mkRequest "POST" Fixture.editor) Fixture2.image Fixture.pm "POST"
                    eq_refl Hpost)).
  - pose proof (approve_and_reject_follow_permission_check Fixture.db Fixture.now
                  (mkRequest "POST" Fixture.outsider) Fixture2.image Fixture.pm "POST"
                  eq_refl Hpost) as [Ha Hr].
    cbv beta in Hr. rewrite Hr. exact Ha.
Defined.

Lemma mapM_Ok_inv {A B} (f : A -> result B) (l : list A) rs :
  mapM f l = Ok rs ->
  (forall x, In x l -> exists r, f x = Ok r /\ In r rs)
  /\ (forall r, In r rs -> exists x, In x l /\ f x = Ok r).
Proof.
  revert rs. induction l as [|a l IH]; simpl; intros rs H.
  - injection H as <-. split; intros ? [].
  - destruct (f a) as [b|e] eqn:Ea; [|discriminate H]. simpl in H.
    destruct (mapM f l) as [bs|e] eqn:El; [|discriminate H]. simpl in H.
    injection H as <-. destruct (IH bs eq_refl) as [IH1 IH2]. split.
    + intros x [<-|Hx].
      * exists b. split; [assumption | now left].
      * destruct (IH1 x Hx) as (r & Hr & Hin). exists r. split; [assumption | now right].
    + intros r [<-|Hr].
      * exists a. split; [now left | assumption].
      * destruct (IH2 r Hr) as (x & Hx & Hfx). exists x. split; [now right | assumption].
Qed.

(** Why a postmark is listed by [my_region]: an open affiliation of
    its facility identity leads to a unit with an active
    responsibility of one of the user's groups. *)
Lemma my_region_In db request postmarks p :
  PostmarkViewSet_my_region db request = Ok postmarks ->
  In p postmarks ->
  exists identity aff resp g,
    related PostalFacilityIdentity.postal_facility_identity_id (PostalFacilityIdentities db)
            (Postmark.postal_facility_identity p) = Ok identity
    /\ In aff (PostalFacilityIdentity_jurisdictions db identity)
    /\ JurisdictionalAffiliation.effective_to_date aff = None
    /\ In resp (AdministrativeUnitResponsibilities db)
    /\ AdministrativeUnitResponsibility.is_active resp = true
    /\ AdministrativeUnitResponsibility.administrative_unit resp
       = JurisdictionalAffiliation.administrative_unit aff
    /\ In g (principal_groups (user request))
    /\ AdministrativeUnitResponsibility.group resp = Group.id g.
Proof.
  unfold PostmarkViewSet_my_region. intros Hrun Hp.
  match type of Hrun with
  | bind (mapM ?f ?resps) _ = _ =>
      destruct (mapM f resps) as [units|e] eqn:Hunits; [|discriminate Hrun]
  end.
  cbn [bind] in Hrun.
  match type of Hrun with
  | bind (mapM ?f ?affs) _ = _ =>
      destruct (mapM f affs) as [identities|e] eqn:Hids; [|discriminate Hrun]
  end.
  cbn [bind] in Hrun. injection Hrun as <-.
  apply filter_In in Hp as [_ Hp]. apply existsb_exists in Hp as (i & Hi & Hpi).
  apply Z.eqb_eq in Hpi.
  destruct (proj2 (mapM_Ok_inv _ _ _ Hids) i Hi) as (aff & Haff & Hrel).
  apply filter_In in Haff as [Haff Hsel]. apply andb_true_iff in Hsel as [Hunit Hopen].
  apply existsb_exists in Hunit as (u & Hu & Hau). apply Z.eqb_eq in Hau.
  destruct (proj2 (mapM_Ok_inv _ _ _ Hunits) u Hu) as (resp & Hresp & Hrelu).
  apply filter_In in Hresp as [Hresp Hact]. apply andb_true_iff in Hact as [Hgrp Hact].
  apply existsb_exists in Hgrp as (g & Hg & Hrg). apply Z.eqb_eq in Hrg.
  apply related_Ok in Hrelu as [_ Hupk].
  pose proof (related_Ok _ _ _ _ Hrel) as [_ Hipk].
  exists i, aff, resp, g. repeat split; try assumption.
  - rewrite Hpi, Hipk. exact Hrel.
  - unfold PostalFacilityIdentity_jurisdictions. apply filter_In.
    split; [assumption | now apply Z.eqb_eq].
  - now destruct (JurisdictionalAffiliation.effective_to_date aff).
  - now destruct (AdministrativeUnitResponsibility.is_active resp).
  - congruence.
Qed.

(** X6. [my_region] lists only postmarks the user may act on: for
    every postmark it returns, and at every time [now], the object
    permission check grants the user every method on that postmark. *)
Theorem my_region_postmarks_are_permitted db now request postmarks :
  affiliation_units_exist db ->
  responsibility_groups_exist db ->
  PostmarkViewSet_my_region db request = Ok postmarks ->
  forall p m, In p postmarks ->
    IsResponsibleForRegion_has_object_permission db now
      (mkRequest m (user request)) (PostmarkInstance p) = Ok true.
Proof.
  intros Haff Hgrp Hrun p m Hp.
  destruct (my_region_In db request postmarks p Hrun Hp)
    as (identity & aff & resp & g & Hid & Hj & Hopen & Hresp & Hact & Hunit & Hg & Hrg).
  destruct (Postmark_get_responsible_groups_eq db now p identity Hid Haff Hgrp)
    as (groups & Hgroups & Hmap).
  unfold IsResponsibleForRegion_has_object_permission.
  destruct (in_methods _ SAFE_METHODS); [reflexivity|].
  rewrite Hgroups. cbn [bind user]. f_equal.
  apply existsb_exists. exists g. split; [assumption|].
  assert (Hin : In (Group.id g) (map Group.id groups)).
  { rewrite Hmap, <- Hrg. apply in_map. unfold active_responsibilities.
    apply filter_In. split; [assumption|]. apply andb_true_iff. split; [|assumption].
    apply existsb_exists. exists (JurisdictionalAffiliation.administrative_unit aff).
    split; [|now apply Z.eqb_eq].
    unfold governing_units. apply in_map. apply filter_In. split; [assumption|].
    unfold selected_affiliation. now rewrite Hopen. }
  apply in_map_iff in Hin as (g' & Heq & Hg').
  apply group_in_spec. exists g'. split; [assumption | now symmetry].
Qed.

Lemma my_region_postmarks_are_permitted_witness :
  PostmarkViewSet_my_region Fixture.db (mkRequest "GET" Fixture.editor) = Ok [Fixture.pm]
  /\ IsResponsibleForRegion_has_object_permission Fixture.db Fixture.now
       (mkRequest "DELETE" Fixture.editor) (PostmarkInstance Fixture.pm) = Ok true.
Proof.
  split; [reflexivity|].
  apply (my_region_postmarks_are_permitted Fixture.db Fixture.now
           (mkRequest "GET" Fixture.editor) [Fixture.pm]).
  - apply fixture_units_exist. intros a [<-|[]]; simpl; auto.
  - apply fixture_groups_exist. intros r [<-|[]]; simpl; auto.
  - reflexivity.
  - now left.
Defined.

Lemma serializer_data_Ok db f i :
  In f (PostalFacilities db) ->
  In i (PostalFacility_identities db f) ->
  exists data, PostalFacilityIdentitySerializer_data db i = Ok data
               /\ identity_row data = i.
Proof.
  intros Hf Hi. apply PostalFacility_identities_In in Hi as [_ Hfk].
  unfold PostalFacilityIdentitySerializer_data,
    PostalFacilityIdentitySerializer_get_coordinates,
    PostalFacilityIdentity_get_coordinates, related.
  destruct (truthy (PostalFacilityIdentity.latitude i)
            && truthy (PostalFacilityIdentity.longitude i)).
  - simpl. eexists. split; reflexivity.
  - destruct (find _ (PostalFacilities db)) as [f'|] eqn:E.
    + simpl. eexists. split; reflexivity.
    + exfalso. apply (find_none _ _ E f) in Hf. rewrite Hfk, Z.eqb_refl in Hf.
      discriminate Hf.
Qed.

(** X7. The [identity_at_date] action never raises for a facility of
    the store.  It answers 400 when the [date] parameter is missing,
    empty or not a date; for a date it answers 404 exactly when no
    identity of the facility contains the date, and otherwise 200 with
    an identity of the facility whose interval contains the date. *)
Theorem identity_at_date_responses fromisoformat db facility date_param :
  In facility (PostalFacilities db) ->
  exists response,
    PostalFacilityViewSet_identity_at_date fromisoformat db facility date_param = Ok response
    /\ match date_param with
       | None => response_status response = HTTP_400_BAD_REQUEST
       | Some date_str =>
           if String.eqb date_str "" then response_status response = HTTP_400_BAD_REQUEST
           else
             match fromisoformat date_str with
             | None => response_status response = HTTP_400_BAD_REQUEST
             | Some d =>
                 (response_status response = HTTP_404_NOT_FOUND
                  /\ forall i, In i (PostalFacility_identities db facility) ->
                               ~ PostalFacilityIdentity_covers i d)
                 \/ (response_status response = HTTP_200_OK
                     /\ exists data,
                          response_data response = DataBody data
                          /\ In (identity_row data) (PostalFacility_identities db facility)
                          /\ PostalFacilityIdentity_covers (identity_row data) d)
             end
       end.
Proof.
  intros Hf. unfold PostalFacilityViewSet_identity_at_date, param_given.
  destruct date_param as [s|]; [|eexists; split; reflexivity].
  destruct (String.eqb s "") eqn:Es; cbn [negb]; [eexists; split; reflexivity|].
  destruct (fromisoformat s) as [d|]; [|eexists; split; reflexivity].
  destruct (PostalFacility_get_identity_at_date db facility d) as [i|] eqn:E.
  - apply (resolve_Some _ _ _ _ d i) in E as [Hin Hcov].
    destruct (serializer_data_Ok db facility i Hf Hin) as (data & Hdata & Hrow).
    rewrite Hdata. cbn [bind]. eexists. split; [reflexivity|]. right.
    split; [reflexivity|]. exists data. rewrite Hrow. repeat split; try assumption.
    apply Hcov. apply Hcov.
  - eexists. split; [reflexivity|]. left. split; [reflexivity|].
    exact (at_date_None _ _ _ _ d E).
Qed.

Lemma identity_at_date_responses_witness :
  exists response,
    PostalFacilityViewSet_identity_at_date Fixture2.fromisoformat Fixture.db Fixture.F
      (Some "1850-01-01") = Ok response
    /\ response_status response = HTTP_404_NOT_FOUND.
Proof.
  destruct (identity_at_date_responses Fixture2.fromisoformat Fixture.db Fixture.F
              (Some "1850-01-01")) as (response & Hrun & Hresp).
  - now left.
  - exists response. split; [exact Hrun|].
    cbn in Hresp. destruct Hresp as [[H _]|[_ (data & _ & Hin & Hle & _)]]; [exact H|].
    exfalso.
    change (PostalFacility_identities Fixture.db Fixture.F)
      with [Fixture.identity_A; Fixture.identity_B] in Hin.
    destruct Hin as [Hd|[Hd|[]]]; rewrite <- Hd in Hle;
      vm_compute in Hle; apply Hle; reflexivity.
Defined.

(* ================================================================== *)
(** * The admin column and the coordinates filter *)

Lemma pk_ordering_smaller_first a b :
  JurisdictionalAffiliation.jurisdictional_affiliation_id a
  < JurisdictionalAffiliation.jurisdictional_affiliation_id b ->
  QuerySet.key_leb JurisdictionalAffiliation_pk_ordering b a = false.
Proof.
  intros Hlt. unfold QuerySet.key_leb, JurisdictionalAffiliation_pk_ordering.
  apply orb_false_iff. split; [apply Z.ltb_ge; lia|].
  apply andb_false_iff. left. apply Z.eqb_neq. lia.
Qed.

(** X8. The admin column [get_admin_unit] of a postmark shows ["-"]
    when its facility identity has no open affiliation.  Among several
    open affiliations it follows the one with the smallest primary
    key, in whatever order the rows are stored, and shows the name the
    unit had when that affiliation started (["-"] if it had none). *)
Theorem get_admin_unit_follows_oldest_open_affiliation db obj identity :
  related PostalFacilityIdentity.postal_facility_identity_id (PostalFacilityIdentities db)
          (Postmark.postal_facility_identity obj) = Ok identity ->
  ((forall a, In a (PostalFacilityIdentity_jurisdictions db identity) ->
              JurisdictionalAffiliation.effective_to_date a <> None) ->
   PostmarkAdmin_get_admin_unit db obj = Ok "-")
  /\
  (forall aff,
      In aff (PostalFacilityIdentity_jurisdictions db identity) ->
      JurisdictionalAffiliation.effective_to_date aff = None ->
      (forall a, In a (PostalFacilityIdentity_jurisdictions db identity) ->
                 JurisdictionalAffiliation.effective_to_date a = None ->
                 a = aff \/ JurisdictionalAffiliation.jurisdictional_affiliation_id aff
                            < JurisdictionalAffiliation.jurisdictional_affiliation_id a) ->
      PostmarkAdmin_get_admin_unit db obj
      = (unit_identity <- JurisdictionalAffiliation_get_administrative_unit_identity db aff ;;
         Ok (match unit_identity with
             | Some i => AdministrativeUnitIdentity.unit_name i
             | None => "-"
             end))).
Proof.
  intros Hid. unfold PostmarkAdmin_get_admin_unit. rewrite Hid. cbn [bind]. split.
  - intros Hclosed.
    destruct (QuerySet.first _ _) as [a|] eqn:E; [|reflexivity].
    apply current_Some in E as [Hin Hopen]. now destruct (Hclosed a Hin).
  - intros aff Hin Hopen Hmin.
    rewrite (first_strict_min JurisdictionalAffiliation_pk_ordering _ aff); [reflexivity| |].
    + apply filter_In. split; [assumption | now rewrite Hopen].
    + intros a Ha. apply filter_In in Ha as [Ha Hp].
      destruct (Hmin a Ha) as [->|Hlt].
      * now destruct (JurisdictionalAffiliation.effective_to_date a).
      * now left.
      * right. now apply pk_ordering_smaller_first.
Qed.

(** Richmond with open affiliations to the CSA (row 2) and Virginia
    (row 1), stored in that order: the column shows Virginia. *)
Lemma get_admin_unit_follows_oldest_open_affiliation_witness :
  PostmarkAdmin_get_admin_unit Fixture2.db_named Fixture.pm = Ok "Virginia".
Proof.
  rewrite (proj2 (get_admin_unit_follows_oldest_open_affiliation
                    Fixture2.db_named Fixture.pm Fixture.identity_B eq_refl)
                 Fixture.aff_va).
  - reflexivity.
  - right. now left.
  - reflexivity.
  - intros a Ha _.
    change (PostalFacilityIdentity_jurisdictions Fixture2.db_named Fixture.identity_B)
      with [Fixture.aff_csa; Fixture.aff_va] in Ha.
    destruct Ha as [<-|[<-|[]]]; [right; reflexivity | now left].
Defined.

Lemma joined_facility_related db i :
  related PostalFacility.postal_facility_id (PostalFacilities db)
          (PostalFacilityIdentity.postal_facility i)
  = match joined_facility db i with Some f => Ok f | None => Raise DoesNotExist end.
Proof. reflexivity. Qed.

(** X9. [filter_has_coordinates] with no value returns the queryset
    unchanged; with a value it splits the identities whose facility
    exists into two disjoint parts: every such identity is kept by
    exactly one of [True] and [False].  [True] keeps an identity when
    both coordinates of its facility are non-null, zero included: an
    identity without override whose facility lies on the equator is
    kept by [True] although the serializer reports no coordinates for
    it. *)
Theorem filter_has_coordinates_partitions db queryset :
  (forall i, In i queryset -> joined_facility db i <> None) ->
  GeographicLocationFilter_filter_has_coordinates db queryset None = queryset
  /\ (forall i, In i queryset ->
        (In i (GeographicLocationFilter_filter_has_coordinates db queryset (Some true))
         <-> ~ In i (GeographicLocationFilter_filter_has_coordinates db queryset (Some false))))
  /\ (forall i f lo,
        In i queryset ->
        joined_facility db i = Some f ->
        PostalFacility.latitude f = Some 0 ->
        PostalFacility.longitude f = Some lo ->
        PostalFacilityIdentity.latitude i = None ->
        In i (GeographicLocationFilter_filter_has_coordinates db queryset (Some true))
        /\ PostalFacilityIdentitySerializer_get_coordinates db i = Ok None).
Proof.
  intros Hjoin. unfold GeographicLocationFilter_filter_has_coordinates.
  split; [reflexivity|]. split.
  - intros i Hi. rewrite !filter_In.
    specialize (Hjoin i Hi). destruct (joined_facility db i) as [f|]; [|now destruct Hjoin].
    destruct (PostalFacility.latitude f), (PostalFacility.longitude f); simpl;
      split; intuition discriminate.
  - intros i f lo Hi Hf Hlat Hlon Hown. split.
    + apply filter_In. split; [assumption|]. now rewrite Hf, Hlat, Hlon.
    + unfold PostalFacilityIdentitySerializer_get_coordinates,
        PostalFacilityIdentity_get_coordinates.
      rewrite Hown, joined_facility_related, Hf. simpl. now rewrite Hlat.
Qed.

Lemma filter_has_coordinates_partitions_witness :
  GeographicLocationFilter_filter_has_coordinates Fixture.db
    [Fixture.identity_A; Fixture.identity_equator] (Some true)
  = [Fixture.identity_A; Fixture.identity_equator]
  /\ ~ In Fixture.identity_A
          (GeographicLocationFilter_filter_has_coordinates Fixture.db
             [Fixture.identity_A; Fixture.identity_equator] (Some false)).
Proof.
  split; [reflexivity|].
  apply (proj1 (proj2 (filter_has_coordinates_partitions Fixture.db
                         [Fixture.identity_A; Fixture.identity_equator]
                         ltac:(intros i [<-|[<-|[]]]; discriminate)))).
  - now left.
  - now left.
Defined.

(* ================================================================== *)
(** * More on the auth restore command *)

Lemma import_rows_dry_run_honoured {Store Row}
  (import_row : RestoreAuth.resource -> Row -> Store -> ImportExport.row_outcome Store)
  (use_transactions : bool) r d c :
  fst (ImportExport.import_data import_row use_transactions r d true c) = c.
Proof.
  unfold ImportExport.import_data. rewrite orb_true_r.
  destruct (ImportExport.import_rows import_row true r d c). reflexivity.
Qed.

(** An import that runs under a savepoint of its own leaves the mark
    of the enclosing transaction as it found it. *)
Lemma import_rows_contained {Store Row}
  (import_row : RestoreAuth.resource -> Row -> Store -> ImportExport.row_outcome Store)
  r d c :
  RestoreAuth.needs_rollback (fst (ImportExport.import_rows import_row true r d c))
  = RestoreAuth.needs_rollback c.
Proof.
  revert c. induction d as [|row rest IH]; intros c; [reflexivity|].
  cbn [ImportExport.import_rows].
  destruct (RestoreAuth.needs_rollback c) eqn:Hc.
  - cbn [fst]. now rewrite IH.
  - destruct (import_row r row (RestoreAuth.tables c)); cbn [fst negb].
    + now rewrite IH.
    + now rewrite IH.
    + now rewrite IH.
Qed.

Lemma import_data_contained {Store Row}
  (import_row : RestoreAuth.resource -> Row -> Store -> ImportExport.row_outcome Store)
  (use_transactions dry_run : bool) r d c :
  use_transactions || dry_run = true ->
  RestoreAuth.needs_rollback
    (fst (ImportExport.import_data import_row use_transactions r d dry_run c))
  = RestoreAuth.needs_rollback c.
Proof.
  intros H. unfold ImportExport.import_data. rewrite H.
  pose proof (import_rows_contained import_row r d c) as Hc.
  destruct (ImportExport.import_rows import_row true r d c) as [c' errors].
  cbn [fst] in *. now destruct (true && (dry_run || errors)).
Qed.

Section RestoreMore.
Import RestoreAuth.
Variables Store Dataset : Type.
Variable read_file : string -> option string.
Variable load : string -> string -> option Dataset.
Variable import_data :
  resource -> Dataset -> bool -> connection Store -> connection Store * ImportResult.

Local Abbreviation handle := (RestoreAuth.handle read_file load import_data).

Ltac run_body :=
  unfold RestoreAuth.handle, atomic, handle_body, seq, when, open_read, Dataset_load,
    run_import, write, ret, return_, raise.

Ltac step :=
  match goal with
  | |- context [match read_file ?p with _ => _ end] => destruct (read_file p) eqn:?
  | |- context [match load ?r ?f with _ => _ end] => destruct (load r f) eqn:?
  | |- context [import_data ?r ?d ?b ?c] =>
      let t := fresh "t" in let m := fresh "m" in
      let h := fresh "h" in let e := fresh "e" in
      destruct (import_data r d b c) as [[t m] [h e]] eqn:?; destruct h
  | |- context [if ?b then _ else _] => destruct b eqn:?
  end; cbn.

(** X10. A dry run relies on the imports to write nothing: if
    [import_data] leaves the tables alone when [dry_run] is set, then
    every dry run of the command leaves the tables as they were,
    whether it completes, aborts on row errors, raises or finds its
    transaction marked. *)
Theorem dry_run_leaves_store_unchanged opts s :
  (forall r d c, tables (fst (import_data r d true c)) = tables c) ->
  dry_run opts = true ->
  final_store read_file load import_data opts s = s.
Proof.
  intros Hhonour Hdry. unfold final_store. run_body. rewrite Hdry. cbn.
  repeat (cbn; cbv beta iota delta [conn stdout calls tables needs_rollback];
          match goal with
          | |- context [match read_file ?p with _ => _ end] => destruct (read_file p)
          | |- context [match load ?r ?f with _ => _ end] => destruct (load r f)
          | |- context [import_data ?r ?d true ?c] =>
              let E := fresh "E" in
              pose proof (Hhonour r d c) as E;
              destruct (import_data r d true c) as [[? ?] [[] ?]]; cbn in E; subst
          | |- context [if ?b then _ else _] => destruct b
          end).
  all: reflexivity.
Qed.

(** X11. A dry run stops at the first dataset with row errors: when
    the groups import reports errors, the groups import is the only
    import made (the users and emails files are not even opened), the
    last line printed is the abort warning, and the run ends normally:
    with the tables as the groups import left them, or as they were
    when that import left the transaction marked. *)
Theorem dry_run_aborts_on_group_errors opts s gp graw gd :
  dry_run opts = true ->
  RestoreAuth.truthy (py_or (users_file opts) (positional (paths opts) 0)) = true ->
  py_or (groups_file opts) (positional (paths opts) 1) = Some gp ->
  gp <> "" ->
  read_file gp = Some graw ->
  load graw (format opts) = Some gd ->
  has_errors (snd (import_data GroupResource gd true (mkConnection s false))) = true ->
  let c0 := mkConnection s false in
  let after_groups := fst (import_data GroupResource gd true c0) in
  let printed :=
    [(ERROR, "Errors importing groups:");
     (PLAIN, row_errors (snd (import_data GroupResource gd true c0)));
     (WARNING, "Dry run aborted due to group errors.")] in
  let made := [mkCall GroupResource c0 after_groups] in
  handle opts s
  = if needs_rollback after_groups
    then (Discarded, mkWorld Store c0 printed made)
    else (Committed (tables after_groups), mkWorld Store after_groups printed made).
Proof.
  intros Hdry Husers Hgroups Hgp Hread Hload Herr. cbv zeta.
  apply String.eqb_neq in Hgp.
  run_body. rewrite Hdry, Husers, Hgroups. cbn. rewrite Hgp. cbn.
  rewrite Hread, Hload. cbv beta iota delta [conn stdout calls].
  destruct (import_data GroupResource gd true (mkConnection s false)) as [[t m] [h e]].
  cbn in Herr. subst h. cbn. destruct m; reflexivity.
Qed.

(** X12. The command exits with [SystemExit] exactly when no users
    path is given (no [--users-file] and no first positional, or empty
    ones); it has then opened no file, printed nothing and imported
    nothing. *)
Theorem exits_iff_no_users_path opts s :
  let users_path := py_or (users_file opts) (positional (paths opts) 0) in
  (RestoreAuth.truthy users_path = false ->
   handle opts s
   = (RolledBack (SystemExit "You must provide at least a users import path."),
      mkWorld Store (mkConnection s false) [] []))
  /\ (RestoreAuth.truthy users_path = true ->
      forall msg, fst (handle opts s) <> RolledBack (SystemExit msg)).
Proof.
  cbv zeta. split.
  - intros H. run_body. rewrite H. reflexivity.
  - intros H msg. run_body. rewrite H. cbn.
    repeat step. all: discriminate.
Qed.

(** X13. A non-dry run that does not raise always ends by printing
    the success line, whether or not row errors were reported before
    it, and whether its writes are committed or discarded. *)
Theorem non_dry_run_ends_with_success_line opts s :
  dry_run opts = false ->
  (forall e, fst (handle opts s) <> RolledBack e) ->
  last (stdout (snd (handle opts s))) (PLAIN, "")
  = (SUCCESS, "Auth import completed successfully.").
Proof.
  intros Hdry. run_body. rewrite Hdry. cbn.
  repeat step.
  all: intros Hne; first [ reflexivity | exfalso; eapply Hne; reflexivity ].
Qed.
End RestoreMore.

Lemma dry_run_leaves_store_unchanged_witness :
  RestoreAuth.final_store RestoreFixture.read_file RestoreFixture.load
    (ImportExport.import_data RestoreFixture.import_row false)
    RestoreFixture2.opts_dry [(RestoreAuth.GroupResource, "admins")]
  = [(RestoreAuth.GroupResource, "admins")].
Proof.
  apply dry_run_leaves_store_unchanged.
  - intros r d c. now rewrite import_rows_dry_run_honoured.
  - reflexivity.
Defined.

Lemma dry_run_aborts_on_group_errors_witness :
  map RestoreAuth.res
      (RestoreAuth.calls (snd (RestoreFixture.run false RestoreFixture2.opts_dry [])))
  = [RestoreAuth.GroupResource]
  /\ fst (RestoreFixture.run false RestoreFixture2.opts_dry []) = RestoreAuth.Committed [].
Proof.
  assert (Hne : "groups.csv" <> "") by discriminate.
  unfold RestoreFixture.run.
  rewrite (dry_run_aborts_on_group_errors _ _ RestoreFixture.read_file RestoreFixture.load
             (ImportExport.import_data RestoreFixture.import_row false)
             RestoreFixture2.opts_dry [] "groups.csv" _ _
             eq_refl eq_refl eq_refl Hne eq_refl eq_refl eq_refl).
  split; reflexivity.
Defined.

Lemma exits_iff_no_users_path_witness :
  fst (RestoreFixture.run false RestoreFixture2.opts_no_users [])
  = RestoreAuth.RolledBack (SystemExit "You must provide at least a users import path.").
Proof.
  unfold RestoreFixture.run.
  rewrite (proj1 (exits_iff_no_users_path _ _ RestoreFixture.read_file RestoreFixture.load
                    (ImportExport.import_data RestoreFixture.import_row false)
                    RestoreFixture2.opts_no_users []) eq_refl).
  reflexivity.
Defined.

(** The test run reports the failed group row and still ends with the
    success line; so does the run into tables that already hold the
    group editors, which commits nothing. *)
Lemma non_dry_run_ends_with_success_line_witness :
  In (RestoreAuth.ERROR, "Errors importing groups:")
     (RestoreAuth.stdout (snd (RestoreFixture.run false RestoreFixture.opts [])))
  /\ last (RestoreAuth.stdout (snd (RestoreFixture.run false RestoreFixture.opts [])))
          (RestoreAuth.PLAIN, "")
     = (RestoreAuth.SUCCESS, "Auth import completed successfully.")
  /\ fst (RestoreFixture.run false RestoreFixture.opts [(RestoreAuth.GroupResource, "editors")])
     = RestoreAuth.Discarded
  /\ last (RestoreAuth.stdout
             (snd (RestoreFixture.run false RestoreFixture.opts
                     [(RestoreAuth.GroupResource, "editors")])))
          (RestoreAuth.PLAIN, "")
     = (RestoreAuth.SUCCESS, "Auth import completed successfully.").
Proof.
  split; [vm_compute; now left|]. split; [|split; [vm_compute; reflexivity|]].
  - eapply (non_dry_run_ends_with_success_line _ _ RestoreFixture.read_file
              RestoreFixture.load
              (ImportExport.import_data RestoreFixture.import_row false)
              RestoreFixture.opts []).
    + reflexivity.
    + intros e. vm_compute. discriminate.
  - eapply (non_dry_run_ends_with_success_line _ _ RestoreFixture.read_file
              RestoreFixture.load
              (ImportExport.import_data RestoreFixture.import_row false)
              RestoreFixture.opts [(RestoreAuth.GroupResource, "editors")]).
    + reflexivity.
    + intros e. vm_compute. discriminate.
Defined.

(* ================================================================== *)
(** * The auth backup command *)

Lemma write_file_same path content fs :
  BackupAuth.write_file path content fs path = Some content.
Proof. unfold BackupAuth.write_file. now rewrite String.eqb_refl. Qed.

Lemma write_file_other path content fs p :
  p <> path -> BackupAuth.write_file path content fs p = fs p.
Proof.
  intros H. unfold BackupAuth.write_file. apply String.eqb_neq in H. now rewrite H.
Qed.

Section BackupFacts.
Variable Store : Type.
Variable export_csv : RestoreAuth.resource -> Store -> string.
Variable writable : string -> bool.

Local Abbreviation run := (BackupAuth.run export_csv writable).

Ltac run_backup :=
  unfold BackupAuth.run, BackupAuth.handle, BackupAuth.seq, BackupAuth.when,
    BackupAuth.open_write, BackupAuth.write, BackupAuth.ret, BackupAuth.raise.

(** X14. The backup is not all-or-nothing: the users file is written
    first, and when the groups path then cannot be opened the command
    raises with the users export already on disk, the other files
    untouched and only the users line printed. *)
Theorem backup_keeps_users_file_when_groups_fail opts store fs up gp :
  RestoreAuth.py_or (BackupAuth.users_file opts)
                    (RestoreAuth.positional (BackupAuth.paths opts) 0) = Some up ->
  RestoreAuth.py_or (BackupAuth.groups_file opts)
                    (RestoreAuth.positional (BackupAuth.paths opts) 1) = Some gp ->
  up <> "" -> gp <> "" ->
  writable up = true -> writable gp = false ->
  run opts store fs
  = (Raise (FileNotFoundError gp),
     BackupAuth.mkWorld
       (BackupAuth.write_file up (export_csv RestoreAuth.UserResource store) fs)
       [(RestoreAuth.SUCCESS, "Exported users to " ++ up)]).
Proof.
  intros Hu Hg Hup Hgp Hwu Hwg. apply String.eqb_neq in Hup, Hgp.
  run_backup. rewrite Hu, Hg. cbn. rewrite Hup, Hgp. cbn. rewrite Hwu. cbn.
  rewrite Hwg. reflexivity.
Qed.

(** The files a complete backup to three distinct paths leaves. *)
Lemma backup_three_files opts store fs up gp ep :
  RestoreAuth.py_or (BackupAuth.users_file opts)
                    (RestoreAuth.positional (BackupAuth.paths opts) 0) = Some up ->
  RestoreAuth.py_or (BackupAuth.groups_file opts)
                    (RestoreAuth.positional (BackupAuth.paths opts) 1) = Some gp ->
  RestoreAuth.py_or (BackupAuth.emails_file opts)
                    (RestoreAuth.positional (BackupAuth.paths opts) 2) = Some ep ->
  up <> "" -> gp <> "" -> ep <> "" ->
  writable up = true -> writable gp = true -> writable ep = true ->
  fst (run opts store fs) = Ok tt
  /\ BackupAuth.files (snd (run opts store fs))
     = BackupAuth.write_file ep (export_csv RestoreAuth.EmailAddressResource store)
         (BackupAuth.write_file gp (export_csv RestoreAuth.GroupResource store)
            (BackupAuth.write_file up (export_csv RestoreAuth.UserResource store) fs)).
Proof.
  intros Hu Hg He Hup Hgp Hep Hwu Hwg Hwe. apply String.eqb_neq in Hup, Hgp, Hep.
  run_backup. rewrite Hu, Hg, He. cbn. rewrite Hup, Hgp, Hep. cbn. rewrite Hwu. cbn.
  rewrite Hwg. cbn. rewrite Hwe. cbn. split; reflexivity.
Qed.

(** X15. Backup, then restore with the same command line.  When the
    three paths are distinct and writable, the backup succeeds and a
    non-dry restore from the files it left opens every file it needs
    and imports, in the order groups, users, emails, the dataset
    parsed from the export of the same resource.  The restore does not
    raise: it commits the tables the three imports leave, unless they
    leave the transaction marked (a restored row the store refuses);
    then nothing is restored. *)
Theorem backup_then_restore_reads_own_exports
  (Dataset : Type) (load : string -> string -> option Dataset)
  (import_data : RestoreAuth.resource -> Dataset -> bool -> RestoreAuth.connection Store
                 -> RestoreAuth.connection Store * RestoreAuth.ImportResult)
  opts store fs s up gp ep gd ud ed :
  RestoreAuth.py_or (BackupAuth.users_file opts)
                    (RestoreAuth.positional (BackupAuth.paths opts) 0) = Some up ->
  RestoreAuth.py_or (BackupAuth.groups_file opts)
                    (RestoreAuth.positional (BackupAuth.paths opts) 1) = Some gp ->
  RestoreAuth.py_or (BackupAuth.emails_file opts)
                    (RestoreAuth.positional (BackupAuth.paths opts) 2) = Some ep ->
  up <> "" -> gp <> "" -> ep <> "" ->
  up <> gp -> up <> ep -> gp <> ep ->
  writable up = true -> writable gp = true -> writable ep = true ->
  load (export_csv RestoreAuth.GroupResource store) "csv" = Some gd ->
  load (export_csv RestoreAuth.UserResource store) "csv" = Some ud ->
  load (export_csv RestoreAuth.EmailAddressResource store) "csv" = Some ed ->
  let restore :=
    RestoreAuth.handle (BackupAuth.files (snd (run opts store fs))) load import_data
      (BackupAuth.restore_options false opts) s in
  let c0 := RestoreAuth.mkConnection s false in
  let c1 := fst (import_data RestoreAuth.GroupResource gd false c0) in
  let c2 := fst (import_data RestoreAuth.UserResource ud false c1) in
  let c3 := fst (import_data RestoreAuth.EmailAddressResource ed false c2) in
  fst (run opts store fs) = Ok tt
  /\ map RestoreAuth.res (RestoreAuth.calls (snd restore))
     = [RestoreAuth.GroupResource; RestoreAuth.UserResource;
        RestoreAuth.EmailAddressResource]
  /\ last (map RestoreAuth.after (RestoreAuth.calls (snd restore))) c0 = c3
  /\ fst restore
     = if RestoreAuth.needs_rollback c3 then RestoreAuth.Discarded
       else RestoreAuth.Committed (RestoreAuth.tables c3).
Proof.
  intros Hu Hg He Hup Hgp Hep Hug Hue Hge Hwu Hwg Hwe Hlg Hlu Hle. cbv zeta.
  destruct (backup_three_files opts store fs up gp ep Hu Hg He Hup Hgp Hep Hwu Hwg Hwe)
    as [Hok Hfiles].
  split; [exact Hok|]. rewrite Hfiles.
  apply (restore_imports_three_files _ _ _ _ _ _ _ gp up ep
           (export_csv RestoreAuth.GroupResource store)
           (export_csv RestoreAuth.UserResource store)
           (export_csv RestoreAuth.EmailAddressResource store));
    try assumption; try reflexivity.
  - rewrite write_file_other by (intro; subst; now apply Hge).
    apply write_file_same.
  - rewrite !write_file_other by (intro; subst; auto).
    apply write_file_same.
  - apply write_file_same.
Qed.

(** X16. One path for two exports: when the users path and the
    groups path are the same file, that file ends up holding the
    groups export (the users export is overwritten), whatever happens
    to the emails export written elsewhere. *)
Theorem backup_same_path_keeps_groups_export opts store fs p :
  RestoreAuth.py_or (BackupAuth.users_file opts)
                    (RestoreAuth.positional (BackupAuth.paths opts) 0) = Some p ->
  RestoreAuth.py_or (BackupAuth.groups_file opts)
                    (RestoreAuth.positional (BackupAuth.paths opts) 1) = Some p ->
  p <> "" ->
  writable p = true ->
  (forall ep, RestoreAuth.py_or (BackupAuth.emails_file opts)
                                (RestoreAuth.positional (BackupAuth.paths opts) 2) = Some ep ->
              ep <> p) ->
  BackupAuth.files (snd (run opts store fs)) p
  = Some (export_csv RestoreAuth.GroupResource store)
  /\ In (RestoreAuth.SUCCESS, "Exported users to " ++ p)
        (BackupAuth.stdout (snd (run opts store fs))).
Proof.
  intros Hu Hg Hp Hw He. apply String.eqb_neq in Hp.
  run_backup. rewrite Hu, Hg. cbn. rewrite Hp. cbn. rewrite Hw. cbn.
  destruct (RestoreAuth.py_or (BackupAuth.emails_file opts) _) as [ep|] eqn:Hep; cbn.
  - specialize (He ep eq_refl). apply not_eq_sym in He.
    destruct (negb (String.eqb ep "")); cbn; [destruct (writable ep); cbn|].
    + split; [|now left]. rewrite write_file_other by assumption. apply write_file_same.
    + split; [|now left]. apply write_file_same.
    + split; [|now left]. apply write_file_same.
  - split; [|now left]. apply write_file_same.
Qed.
End BackupFacts.

Lemma backup_keeps_users_file_when_groups_fail_witness :
  fst (BackupAuth.run BackupFixture.export_csv BackupFixture.writable
         BackupFixture.opts_unwritable BackupFixture.store BackupFixture.no_files)
  = Raise (FileNotFoundError "/proc/groups.csv")
  /\ BackupAuth.files
       (snd (BackupAuth.run BackupFixture.export_csv BackupFixture.writable
               BackupFixture.opts_unwritable BackupFixture.store BackupFixture.no_files))
       "users.csv"
     = Some ("alice" ++ RestoreFixture.nl ++ "bob").
Proof.
  assert (Hu : "users.csv" <> "") by discriminate.
  assert (Hg : "/proc/groups.csv" <> "") by discriminate.
  rewrite (backup_keeps_users_file_when_groups_fail _ BackupFixture.export_csv
             BackupFixture.writable BackupFixture.opts_unwritable BackupFixture.store
             BackupFixture.no_files "users.csv" "/proc/groups.csv"
             eq_refl eq_refl Hu Hg eq_refl eq_refl).
  split; reflexivity.
Defined.

(** Backing up the test store and restoring into an empty store
    gives the test store back.  Restoring the same backup over the
    test store itself restores nothing: the store refuses the group it
    already holds, and the transaction is rolled back. *)
Lemma backup_then_restore_reads_own_exports_witness :
  let restore s :=
    RestoreAuth.handle
      (BackupAuth.files
         (snd (BackupAuth.run BackupFixture.export_csv BackupFixture.writable
                 BackupFixture.opts BackupFixture.store BackupFixture.no_files)))
      RestoreFixture.load
      (ImportExport.import_data RestoreFixture.import_row false)
      (BackupAuth.restore_options false BackupFixture.opts) s in
  fst (restore []) = RestoreAuth.Committed BackupFixture.store
  /\ fst (restore BackupFixture.store) = RestoreAuth.Discarded.
Proof.
  assert (Hne : forall p q : string, String.eqb p q = false -> p <> q)
    by (intros p q; apply String.eqb_neq).
  assert (H : forall s,
    fst (RestoreAuth.handle
           (BackupAuth.files
              (snd (BackupAuth.run BackupFixture.export_csv BackupFixture.writable
                      BackupFixture.opts BackupFixture.store BackupFixture.no_files)))
           RestoreFixture.load
           (ImportExport.import_data RestoreFixture.import_row false)
           (BackupAuth.restore_options false BackupFixture.opts) s)
    = let c3 :=
        fst (ImportExport.import_data RestoreFixture.import_row false
               RestoreAuth.EmailAddressResource ["alice@example.org"] false
               (fst (ImportExport.import_data RestoreFixture.import_row false
                       RestoreAuth.UserResource ["alice"; "bob"] false
                       (fst (ImportExport.import_data RestoreFixture.import_row false
                               RestoreAuth.GroupResource ["editors"] false
                               (RestoreAuth.mkConnection s false)))))) in
      if RestoreAuth.needs_rollback c3 then RestoreAuth.Discarded
      else RestoreAuth.Committed (RestoreAuth.tables c3)).
  { intros s.
    exact (proj2 (proj2 (proj2
             (backup_then_restore_reads_own_exports _ BackupFixture.export_csv
                BackupFixture.writable _ RestoreFixture.load
                (ImportExport.import_data RestoreFixture.import_row false)
                BackupFixture.opts BackupFixture.store BackupFixture.no_files s
                "users.csv" "groups.csv" "emails.csv"
                ["editors"] ["alice"; "bob"] ["alice@example.org"]
                eq_refl eq_refl eq_refl
                (Hne "users.csv" "" eq_refl) (Hne "groups.csv" "" eq_refl)
                (Hne "emails.csv" "" eq_refl)
                (Hne "users.csv" "groups.csv" eq_refl)
                (Hne "users.csv" "emails.csv" eq_refl)
                (Hne "groups.csv" "emails.csv" eq_refl)
                eq_refl eq_refl eq_refl eq_refl eq_refl eq_refl)))). }
  cbv zeta. split.
  - etransitivity; [exact (H []) | vm_compute; reflexivity].
  - etransitivity; [exact (H BackupFixture.store) | vm_compute; reflexivity].
Defined.

Lemma backup_same_path_keeps_groups_export_witness :
  BackupAuth.files
    (snd (BackupAuth.run BackupFixture.export_csv BackupFixture.writable
            BackupFixture.opts_same BackupFixture.store BackupFixture.no_files))
    "auth.csv"
  = Some "editors".
Proof.
  assert (Hp : "auth.csv" <> "") by discriminate.
  apply (backup_same_path_keeps_groups_export _ BackupFixture.export_csv
           BackupFixture.writable BackupFixture.opts_same BackupFixture.store
           BackupFixture.no_files "auth.csv" eq_refl eq_refl Hp eq_refl).
  intros ep Hep. discriminate Hep.
Defined.

(* ================================================================== *)
(** * Image checksums *)

Section ChecksumFacts.
Variable Hash : Type.
Variable sha256 : Hash.
Variable update : Hash -> list Byte.byte -> Hash.
Variable hexdigest : Hash -> string.

(** Feeding a hash object block by block is feeding it the
    concatenation, and an empty block changes nothing. *)
Hypothesis update_nil : forall h, update h [] = h.
Hypothesis update_app : forall h a b, update (update h a) b = update h (a ++ b)%list.

Lemma firstn_nil_inv {A} (n : nat) (l : list A) :
  (0 < n)%nat -> firstn n l = [] -> l = [].
Proof. intros Hn H. destruct n; [lia|]. destruct l; [reflexivity | discriminate H]. Qed.

Lemma skipn_length_app {A} (l1 l2 : list A) :
  skipn (List.length l1) (l1 ++ l2) = l2.
Proof. induction l1 as [|x l1 IH]; [reflexivity | exact IH]. Qed.

(** With more fuel than bytes left, the loop feeds every byte from
    the position on and stops at the end of the file. *)
Lemma read_blocks_all fuel h f :
  (List.length (skipn (FileObject.position f) (FileObject.content f)) < fuel)%nat ->
  read_blocks Hash update fuel h f
  = (update h (skipn (FileObject.position f) (FileObject.content f)),
     FileObject.mk (FileObject.content f)
       (FileObject.position f
        + List.length (skipn (FileObject.position f) (FileObject.content f)))).
Proof.
  revert h f. induction fuel as [|fuel IH]; intros h [content position] Hfuel; [lia|].
  cbn [read_blocks FileObject.read FileObject.content FileObject.position] in *.
  set (rest := skipn position content) in *.
  destruct (firstn 4096 rest) as [|b block] eqn:Eblock.
  - apply firstn_nil_inv in Eblock; [|lia]. rewrite Eblock, update_nil.
    cbn [List.length]. reflexivity.
  - assert (Hrest : rest = ((b :: block) ++ skipn 4096 rest)%list)
      by (rewrite <- Eblock; symmetry; apply firstn_skipn).
    assert (Hskip : skipn (position + List.length (b :: block)) content
                    = skipn 4096 rest).
    { rewrite Nat.add_comm, <- skipn_skipn. fold rest. rewrite Hrest at 1.
      apply skipn_length_app. }
    assert (Hlen : List.length rest
                   = (List.length (b :: block) + List.length (skipn 4096 rest))%nat)
      by (rewrite Hrest at 1; apply length_app).
    rewrite IH; cbn [FileObject.content FileObject.position]; rewrite Hskip.
    + rewrite update_app, <- Hrest, Hlen, Nat.add_assoc. reflexivity.
    + cbn [List.length] in Hlen. lia.
Qed.

(** X17. [generate_checksum] reads the file to its end in blocks of
    4096 bytes and, for a hash object that may be fed piecewise,
    returns the digest of all the bytes from the read position on,
    whatever their number; it leaves the file object rewound to
    position 0.  [save] fills an empty checksum from an attached file
    and never replaces a checksum that is already set. *)
Theorem generate_checksum_hashes_rest_and_rewinds :
  (forall f,
      PostmarkImage_generate_checksum Hash sha256 update hexdigest f
      = (hexdigest (update sha256 (skipn (FileObject.position f) (FileObject.content f))),
         FileObject.mk (FileObject.content f) 0))
  /\ (forall image f,
         PostmarkImage.file_checksum image = "" ->
         FileObject.position f = 0%nat ->
         PostmarkImage_save Hash sha256 update hexdigest image (Some f)
         = (set_file_checksum (hexdigest (update sha256 (FileObject.content f))) image,
            Some f))
  /\ (forall image file_object,
         PostmarkImage.file_checksum image <> "" ->
         PostmarkImage_save Hash sha256 update hexdigest image file_object
         = (image, file_object)).
Proof.
  assert (Hgen : forall f,
             PostmarkImage_generate_checksum Hash sha256 update hexdigest f
             = (hexdigest (update sha256
                             (skipn (FileObject.position f) (FileObject.content f))),
                FileObject.mk (FileObject.content f) 0)).
  { intros f. unfold PostmarkImage_generate_checksum.
    rewrite read_blocks_all; [reflexivity|].
    rewrite length_skipn. lia. }
  split; [exact Hgen|]. split.
  - intros image [content position] Hsum Hpos. cbn in Hpos. subst position.
    unfold PostmarkImage_save. rewrite Hsum, Hgen. reflexivity.
  - intros image file_object Hsum. unfold PostmarkImage_save.
    apply String.eqb_neq in Hsum. rewrite Hsum. now destruct file_object.
Qed.
End ChecksumFacts.

(** Two blocks are read; the digest covers the 4998 bytes left, and
    the file is rewound. *)
Lemma generate_checksum_hashes_rest_and_rewinds_witness :
  PostmarkImage_generate_checksum ChecksumFixture.Hash ChecksumFixture.sha256
    ChecksumFixture.update ChecksumFixture.hexdigest ChecksumFixture.file_object
  = (string_of_list_byte (repeat Byte.x61 4998),
     FileObject.mk (FileObject.content ChecksumFixture.file_object) 0).
Proof.
  rewrite (proj1 (generate_checksum_hashes_rest_and_rewinds
                    ChecksumFixture.Hash ChecksumFixture.sha256
                    ChecksumFixture.update ChecksumFixture.hexdigest
                    (fun h => app_nil_r h) (fun h a b => eq_sym (app_assoc h a b)))).
  vm_compute. reflexivity.
Defined.

(* ================================================================== *)
(** * Adding a colour *)

Section AddColorFacts.
Variable Value : Type.
Variable truth : Value -> bool.
Variable to_pk : Value -> string + Z.

(** X18. [add_color] never adds a colour.  It creates the row with
    [created_by] only, and the store refuses a row whose required
    [modified_by] is null: for every request, whatever value it
    carries as [color_id], the answer is 400 or 404, never 200, and the
    table is left as it was.  The answer is 404 exactly when the value
    is true, reads as a primary key and no colour has that key; a
    missing, null or false value (the number 0, the empty string) is
    answered 400, "color_id is required". *)
Theorem add_color_never_adds colors postmark_colors request_user postmark color_id :
  let result :=
    PostmarkViewSet_add_color Value truth to_pk
      colors postmark_colors request_user postmark color_id in
  snd result = postmark_colors
  /\ response_status (fst result) <> HTTP_200_OK
  /\ (response_status (fst result) = HTTP_404_NOT_FOUND <->
      exists v pk, color_id = Some v /\ truth v = true /\ to_pk v = inr pk
                   /\ forall c, In c colors -> Color.color_id c <> pk)
  /\ ((forall v, color_id = Some v -> truth v = false) ->
      fst result = mkResponse (ErrorBody "color_id is required") HTTP_400_BAD_REQUEST).
Proof.
  cbv zeta. unfold PostmarkViewSet_add_color, PostmarkColor_create.
  destruct color_id as [v|].
  2: { split; [reflexivity|]. split; [discriminate|]. split; [|reflexivity].
       split; [discriminate|]. intros (v & pk & H & _). discriminate H. }
  destruct (truth v) eqn:Ht; cbn [negb].
  2: { split; [reflexivity|]. split; [discriminate|]. split; [|reflexivity].
       split; [discriminate|]. intros (v' & pk & [= <-] & Ht' & _). congruence. }
  destruct (to_pk v) as [e|pk] eqn:Epk.
  - split; [reflexivity|]. split; [discriminate|]. split.
    + split; [discriminate|]. intros (v' & pk & [= <-] & _ & Hpk & _). congruence.
    + intros H. specialize (H v eq_refl). congruence.
  - destruct (find (fun c => Color.color_id c =? pk) colors) as [c|] eqn:E; cbn.
    + split; [reflexivity|]. split; [discriminate|]. split.
      * split; [discriminate|].
        intros (v' & pk' & [= <-] & _ & Hpk & Hnone).
        rewrite Epk in Hpk. injection Hpk as <-.
        apply find_some in E as [Hin Heq]. apply Z.eqb_eq in Heq.
        destruct (Hnone c Hin Heq).
      * intros H. specialize (H v eq_refl). congruence.
    + split; [reflexivity|]. split; [discriminate|]. split.
      * split; [|reflexivity]. intros _. exists v, pk.
        split; [reflexivity|]. split; [assumption|]. split; [assumption|].
        intros c Hc Heq. apply (find_none _ _ E) in Hc. apply Z.eqb_neq in Hc.
        contradiction.
      * intros H. specialize (H v eq_refl). congruence.
Qed.
End AddColorFacts.

(** The string "0" is a true value that reads as the key 0, which no
    colour has: the answer is 404.  The number 0 is a false value: the
    answer is 400. *)
Lemma add_color_never_adds_witness :
  response_status
    (fst (PostmarkViewSet_add_color ColorFixture.Value ColorFixture.truth ColorFixture.to_pk
            ColorFixture.colors [] 1 Fixture.pm (Some (ColorFixture.Str "0"))))
  = HTTP_404_NOT_FOUND
  /\ fst (PostmarkViewSet_add_color ColorFixture.Value ColorFixture.truth ColorFixture.to_pk
            ColorFixture.colors [] 1 Fixture.pm (Some (ColorFixture.Num 0)))
     = mkResponse (ErrorBody "color_id is required") HTTP_400_BAD_REQUEST.
Proof.
  destruct (add_color_never_adds ColorFixture.Value ColorFixture.truth ColorFixture.to_pk
              ColorFixture.colors [] 1 Fixture.pm (Some (ColorFixture.Str "0")))
    as (_ & _ & H404 & _).
  destruct (add_color_never_adds ColorFixture.Value ColorFixture.truth ColorFixture.to_pk
              ColorFixture.colors [] 1 Fixture.pm (Some (ColorFixture.Num 0)))
    as (_ & _ & _ & Hrequired).
  split.
  - apply H404. exists (ColorFixture.Str "0"), 0.
    split; [reflexivity|]. split; [reflexivity|]. split; [reflexivity|].
    intros c [<-|[]]. discriminate.
  - apply Hrequired. intros v [= <-]. reflexivity.
Defined.
